(** * Health-Tracker: streak engine, check-in transitions, feed and accounts

    A shallow embedding of the request handlers of the habit tracker
    (Next.js route handlers over a Prisma store) and the properties of
    their statistics, check-in and account logic.

    Conventions of the embedding.
    - An instant ([Date]) is its time value: milliseconds since the epoch,
      in [Z].  The local calendar is a zone at a fixed offset [tz]
      (milliseconds, local = UTC + tz); daylight-saving shifts are outside
      the model.  The [Date] methods follow ECMAScript's definitions
      ([Day], [WeekDay], [MakeDay], [MakeDate]) at that offset.
    - A handler reads the clock once: the [new Date()] calls of one request
      are one instant [now].
    - The database is a record of tables, each a list of rows in storage
      order; [findFirst] without [orderBy] takes the first matching row.
      Queries are total (a connection failure, which the handlers answer
      with status 500, is not part of the model).
    - [getCurrentUser], [hashPassword], [verifyPassword], [generateToken]
      and the row identifiers the database client generates come from
      outside the handlers: the first as the handler's [user] argument, the
      others as section variables and arguments.  So does the match of the
      user search ([contains] with [mode: "insensitive"]), which the
      database evaluates on the query as it arrives.
    - Strings are byte strings; [toLowerCase] and [trim] act on ASCII.
    - Counts are exact and the quotient of [Math.round] is a rational: the
      error of the source's floating-point division is far below the
      distance of [100 * recent / expected] from a half-integer, which is
      at least 1/6. *)

From Stdlib Require Import ZArith QArith Qround String Ascii Lia.
From Stdlib Require DecimalString.
From stdpp Require Import base list sorting strings.

Set Default Proof Using "Type".

Local Open Scope Z_scope.

(** ** Responses *)

(** [NextResponse.json(payload, { status })], with the cookie a handler may
    set on it.  An error payload is [{ error: msg }]. *)
Record Cookie := {
  cookie_name : string;
  cookie_value : string;
  cookie_maxAge : Z
}.

Record Response (A : Type) := {
  status : Z;
  body : string + A;
  set_cookie : option Cookie
}.
Arguments status {A} _.
Arguments body {A} _.
Arguments set_cookie {A} _.

Definition json_error {A} (msg : string) (st : Z) : Response A :=
  {| status := st; body := inl msg; set_cookie := None |}.

Definition json_ok {A} (payload : A) (st : Z) : Response A :=
  {| status := st; body := inr payload; set_cookie := None |}.

(** ** Data model (the four tables) *)

Inductive Frequency := daily | weekly.
Inductive Category := health | study | personal | work.

Record User := {
  user_id : string;
  email : string;
  username : string;
  password : string;
  bio : option string;
  avatar : option string
}.

Record Habit := {
  habit_id : string;
  habit_userId : string;
  name : string;
  category : Category;
  frequency : Frequency;
  habit_notes : option string;
  color : string;
  habit_createdAt : Z
}.

Record Completion := {
  completion_id : string;
  habitId : string;
  userId : string;
  completedAt : Z;
  notes : option string
}.

Record Friendship := {
  friendship_id : string;
  followerId : string;
  followingId : string
}.

Record Store := {
  user_table : list User;
  habit_table : list Habit;
  completion_table : list Completion;
  friendship_table : list Friendship
}.

Global Instance Frequency_eq_dec : EqDecision Frequency.
Proof. solve_decision. Defined.

(** ** Query helpers *)

(** [orderBy: { completedAt: "desc" }] *)
Definition completedAt_desc (a b : Completion) : Prop :=
  completedAt b <= completedAt a.

Global Instance completedAt_desc_dec : RelDecision completedAt_desc.
Proof. intros a b. unfold completedAt_desc. apply _. Defined.

Definition orderBy_completedAt_desc (rows : list Completion) : list Completion :=
  merge_sort completedAt_desc rows.

(** [orderBy: { createdAt: "desc" }] on habits *)
Definition habit_createdAt_desc (a b : Habit) : Prop :=
  habit_createdAt b <= habit_createdAt a.

Global Instance habit_createdAt_desc_dec : RelDecision habit_createdAt_desc.
Proof. intros a b. unfold habit_createdAt_desc. apply _. Defined.

(** [include: { completions: { orderBy: { completedAt: "desc" }, take: 30 } }]
    for the habit [hid]. *)
Definition lastCompletions (db : Store) (hid : string) : list Completion :=
  take 30 (orderBy_completedAt_desc
             (filter (fun c => habitId c = hid) (completion_table db))).

(** ** Math *)

Definition Math_round (x : Q) : Z := Qfloor (x + (1 # 2)).
Definition Math_ceil (x : Q) : Z := Qceiling x.

(** ** Strings *)

Definition lower_ascii (c : ascii) : ascii :=
  let n := nat_of_ascii c in
  if ((65 <=? n) && (n <=? 90))%nat then ascii_of_nat (n + 32) else c.

Fixpoint toLowerCase (s : string) : string :=
  match s with
  | EmptyString => EmptyString
  | String c s' => String (lower_ascii c) (toLowerCase s')
  end.

Definition is_space (c : ascii) : bool :=
  let n := nat_of_ascii c in
  ((n =? 32) || ((9 <=? n) && (n <=? 13)))%nat.

Fixpoint trimStart (s : string) : string :=
  match s with
  | EmptyString => EmptyString
  | String c s' => if is_space c then trimStart s' else s
  end.

Fixpoint trimEnd (s : string) : string :=
  match s with
  | EmptyString => EmptyString
  | String c s' =>
      match trimEnd s' with
      | EmptyString => if is_space c then EmptyString else String c EmptyString
      | r => String c r
      end
  end.

Definition trim (s : string) : string := trimEnd (trimStart s).

(** [s.length] *)
Definition strlen (s : string) : Z := Z.of_nat (String.length s).

(** Every character of [s] satisfies [p] (a regex of the shape [^[...]*$]). *)
Fixpoint all_chars (p : ascii -> bool) (s : string) : bool :=
  match s with
  | EmptyString => true
  | String c s' => p c && all_chars p s'
  end.

(** Some character of [s] satisfies [p] (a lookahead [(?=.*[...])]). *)
Fixpoint some_char (p : ascii -> bool) (s : string) : bool :=
  match s with
  | EmptyString => false
  | String c s' => p c || some_char p s'
  end.

Definition is_lower (c : ascii) : bool :=
  let n := nat_of_ascii c in ((97 <=? n) && (n <=? 122))%nat.
Definition is_upper (c : ascii) : bool :=
  let n := nat_of_ascii c in ((65 <=? n) && (n <=? 90))%nat.
Definition is_digit (c : ascii) : bool :=
  let n := nat_of_ascii c in ((48 <=? n) && (n <=? 57))%nat.

Section HealthTracker.

(** Offset of the local zone from UTC, in milliseconds. *)
Variable tz : Z.

(** Collaborators outside the handlers: zod's [.email()] and [.url()]
    checks and the functions of [@/lib/auth]. *)
Variable isEmail : string -> bool.
Variable isUrl : string -> bool.
Variable hashPassword : string -> string.
Variable verifyPassword : string -> string -> bool.
Variable generateToken : string -> string.

(** ** Dates *)

Definition msPerDay : Z := 86400000.

(** ECMAScript [Day(LocalTime(t))]. *)
Definition localDay (t : Z) : Z := (t + tz) / msPerDay.

(** [d.setHours(0, 0, 0, 0)]: local midnight of [d]'s day. *)
Definition setHours0 (t : Z) : Z := localDay t * msPerDay - tz.

(** [d.getDay()]: 0 is Sunday; day 0 of the epoch is a Thursday. *)
Definition getDay (t : Z) : Z := (localDay t + 4) mod 7.

(** [d.setDate(d.getDate() + k)]: [MakeDay] carries a day of the month
    outside the month into the neighbouring months, so the result is [k]
    calendar days away at the same time of day. *)
Definition addDays (t k : Z) : Z := t + k * msPerDay.

(** ** Streak (the loops of the habits, profile and friends handlers) *)

(** [for (const completion of completions)] of the daily branch, with the
    mutable [checkDate] and [streak] threaded through. *)
Fixpoint dailyLoop (completions : list Completion) (checkDate : Z) (streak : nat) : nat :=
  match completions with
  | [] => streak
  | completion :: rest =>
      let completionDate := setHours0 (completedAt completion) in
      if completionDate =? checkDate then
        dailyLoop rest (addDays checkDate (-1)) (S streak)
      else if completionDate <? checkDate then streak
      else dailyLoop rest checkDate streak
  end.

(** [completionWeekStart] of the streak loop: back to Sunday, then
    [setHours(0, 0, 0, 0)]. *)
Definition completionWeekStart (t : Z) : Z :=
  setHours0 (addDays t (- getDay t)).

Fixpoint weeklyLoop (completions : list Completion) (checkWeek : Z) (streak : nat) : nat :=
  match completions with
  | [] => streak
  | completion :: rest =>
      let completionWeekStart := completionWeekStart (completedAt completion) in
      if completionWeekStart =? checkWeek then
        weeklyLoop rest (addDays checkWeek (-7)) (S streak)
      else if completionWeekStart <? checkWeek then streak
      else weeklyLoop rest checkWeek streak
  end.

(** [today]: [new Date()] then [setHours(0, 0, 0, 0)]. *)
Definition today (now : Z) : Z := setHours0 now.

(** [weekStart]: a copy of [today] moved back to Sunday. *)
Definition weekStart (now : Z) : Z :=
  addDays (today now) (- getDay (today now)).

Definition streak (f : Frequency) (completions : list Completion) (now : Z) : nat :=
  match f with
  | daily => dailyLoop completions (today now) 0
  | weekly => weeklyLoop completions (weekStart now) 0
  end.

(** ** Completed today / this week (habits handler only) *)

(** The callback of [completions.some].  In the weekly branch
    [completionWeekStart] is moved back to Sunday but keeps its time of
    day: there is no [setHours] call on it here. *)
Definition completedToday (f : Frequency) (completions : list Completion) (now : Z) : bool :=
  existsb
    (fun completion =>
       let completionDate := completedAt completion in
       match f with
       | daily => setHours0 completionDate =? today now
       | weekly =>
           let weekStart := weekStart now in
           let completionWeekStart := addDays completionDate (- getDay completionDate) in
           completionWeekStart =? weekStart
       end)
    completions.

(** ** Progress over the last 30 days *)

Definition expectedCompletions (f : Frequency) : Z :=
  match f with
  | daily => 30
  | weekly => Math_ceil (30 # 7)
  end.

Definition recentCompletions (completions : list Completion) (now : Z) : list Completion :=
  let thirtyDaysAgo := addDays now (-30) in
  filter (fun c => thirtyDaysAgo <= completedAt c) completions.

Definition progress (f : Frequency) (completions : list Completion) (now : Z) : Z :=
  Z.min 100
    (Math_round
       ((inject_Z (Z.of_nat (length (recentCompletions completions now)))
         / inject_Z (expectedCompletions f)) * inject_Z 100)%Q).

(** The three statistics the habits handler attaches to a habit. *)
Record HabitStats := {
  stats_streak : nat;
  stats_progress : Z;
  stats_completedToday : bool
}.

Definition habitStats (f : Frequency) (completions : list Completion) (now : Z) : HabitStats :=
  {| stats_streak := streak f completions now;
     stats_progress := progress f completions now;
     stats_completedToday := completedToday f completions now |}.

(** The statistics as the spec words them, for comparison with [progress]:
    the nearest integer to [a / b] for [b > 0] ... *)
Definition round_div (a b : Z) : Z := (2 * a + b) / (2 * b).

(** ... and [min(100, round(100 * recent / expected))], with [expected]
    30 for daily and 5 for weekly habits. *)
Definition progressPercent_spec (f : Frequency) (completions : list Completion) (asOf : Z) : Z :=
  let recent :=
    Z.of_nat (length (filter (fun c => asOf - 30 * msPerDay <= completedAt c) completions)) in
  let expected := match f with daily => 30 | weekly => 5 end in
  Z.min 100 (round_div (100 * recent) expected).

(** The period of an instant: its local day, or its week from Sunday. *)
Definition periodStart (f : Frequency) (t : Z) : Z :=
  match f with
  | daily => setHours0 t
  | weekly => completionWeekStart t
  end.

Definition periodDays (f : Frequency) : Z :=
  match f with daily => 1 | weekly => 7 end.

(** ** GET /api/habits *)

Record HabitWithStats := {
  hs_habit : Habit;
  hs_streak : nat;
  hs_progress : Z;
  hs_completedToday : bool;
  hs_totalCompletions : nat
}.

Definition habits_GET (user : option User) (db : Store) (now : Z)
  : Response (list HabitWithStats) :=
  match user with
  | None => json_error "Not authenticated" 401
  | Some user =>
      let habits :=
        merge_sort habit_createdAt_desc
          (filter (fun h => habit_userId h = user_id user) (habit_table db)) in
      let habitsWithStats :=
        map (fun habit =>
               let completions := lastCompletions db (habit_id habit) in
               {| hs_habit := habit;
                  hs_streak := streak (frequency habit) completions now;
                  hs_progress := progress (frequency habit) completions now;
                  hs_completedToday := completedToday (frequency habit) completions now;
                  hs_totalCompletions :=
                    length (filter (fun c => habitId c = habit_id habit) (completion_table db)) |})
            habits in
      json_ok habitsWithStats 200
  end.

(** ** GET /api/profile *)

Record ProfileHabit := {
  ph_habit : Habit;
  ph_streak : nat;
  ph_progress : Z;
  ph_totalCompletions : nat
}.

Record Profile := {
  profile_user : User;
  totalHabits : nat;
  totalCompletions : nat;
  followersCount : nat;
  followingCount : nat;
  currentStreak : nat;
  longestStreak : nat;
  profile_habits : list ProfileHabit
}.

(** [Math.max(...xs)] over a non-empty array of counts. *)
Definition Math_max (x : nat) (xs : list nat) : nat := foldl Nat.max x xs.

Definition profile_GET (user : option User) (db : Store) (now : Z) : Response Profile :=
  match user with
  | None => json_error "Not authenticated" 401
  | Some user =>
      match find (fun u => bool_decide (user_id u = user_id user)) (user_table db) with
      | None => json_error "User not found" 404
      | Some userProfile =>
          let habits := filter (fun h => habit_userId h = user_id userProfile) (habit_table db) in
          let habitsWithStats :=
            map (fun habit =>
                   let completions := lastCompletions db (habit_id habit) in
                   {| ph_habit := habit;
                      ph_streak := streak (frequency habit) completions now;
                      ph_progress := progress (frequency habit) completions now;
                      ph_totalCompletions :=
                        length (filter (fun c => habitId c = habit_id habit) (completion_table db)) |})
                habits in
          let currentStreak :=
            match map ph_streak habitsWithStats with
            | [] => 0%nat
            | x :: xs => Math_max x xs
            end in
          let longestStreak := currentStreak in
          json_ok
            {| profile_user := userProfile;
               totalHabits := length habits;
               totalCompletions :=
                 length (filter (fun c => userId c = user_id userProfile) (completion_table db));
               followersCount :=
                 length (filter (fun f => followingId f = user_id userProfile) (friendship_table db));
               followingCount :=
                 length (filter (fun f => followerId f = user_id userProfile) (friendship_table db));
               currentStreak := currentStreak;
               longestStreak := longestStreak;
               profile_habits := habitsWithStats |}
            200
      end
  end.

(** ** GET /api/friends

    The activity feed: the branch the handler takes when [type] is absent
    or is neither ["following"] nor ["followers"] (those two return the
    lists of users before the feed is built). *)

Record Activity := {
  activity : Completion;
  activity_user : option User;
  activity_habit : option Habit;
  activity_streak : nat
}.

Definition followedUserIds (db : Store) (viewer : string) : list string :=
  map followingId (filter (fun f => followerId f = viewer) (friendship_table db)).

Definition recentActivity (db : Store) (viewer : string) : list Completion :=
  take 50 (orderBy_completedAt_desc
             (filter (fun c => userId c ∈ followedUserIds db viewer) (completion_table db))).

Definition friends_GET (user : option User) (db : Store) (now : Z)
  : Response (list Activity) :=
  match user with
  | None => json_error "Not authenticated" 401
  | Some user =>
      let activityWithStreaks :=
        map (fun activity =>
               let habit :=
                 find (fun h => bool_decide (habit_id h = habitId activity)) (habit_table db) in
               let streak :=
                 match habit with
                 | Some habit =>
                     let completions :=
                       take 30 (orderBy_completedAt_desc
                                  (filter (fun c => habitId c = habit_id habit
                                                    /\ userId c = userId activity)
                                          (completion_table db))) in
                     streak (frequency habit) completions now
                 | None => 0%nat
                 end in
               {| activity := activity;
                  activity_user :=
                    find (fun u => bool_decide (user_id u = userId activity)) (user_table db);
                  activity_habit := habit;
                  activity_streak := streak |})
            (recentActivity db (user_id user)) in
      json_ok activityWithStreaks 200
  end.

(** ** POST and DELETE /api/habits/[id]/checkin *)

(** [prisma.habit.findFirst({ where: { id, userId } })] *)
Definition findHabit (db : Store) (id uid : string) : option Habit :=
  find (fun h => bool_decide (habit_id h = id) && bool_decide (habit_userId h = uid))
       (habit_table db).

(** The [where] of [prisma.completion.findFirst]: the habit, the user and
    [completedAt: { gte, lt }]. *)
Definition inWindow (id uid : string) (gte lt : Z) (c : Completion) : bool :=
  bool_decide (habitId c = id) && bool_decide (userId c = uid)
  && (gte <=? completedAt c) && (completedAt c <? lt).

Definition findCompletion (db : Store) (id uid : string) (gte lt : Z) : option Completion :=
  find (inWindow id uid gte lt) (completion_table db).

(** The row of the current period, as both check-in handlers look it up. *)
Definition currentCompletion (db : Store) (habit : Habit) (id uid : string) (now : Z)
  : option Completion :=
  match frequency habit with
  | daily =>
      let tomorrow := addDays (today now) 1 in
      findCompletion db id uid (today now) tomorrow
  | weekly =>
      let weekStart := weekStart now in
      let weekEnd := addDays weekStart 7 in
      findCompletion db id uid weekStart weekEnd
  end.

Definition set_completions (db : Store) (rows : list Completion) : Store :=
  {| user_table := user_table db; habit_table := habit_table db;
     completion_table := rows; friendship_table := friendship_table db |}.

(** POST: [newId] is the identifier generated for the new row; the table's
    primary key refuses one that is already there, which the handler's
    [catch] answers with status 500. *)
Definition checkin_POST (user : option User) (db : Store) (id : string)
    (body_notes : option string) (now : Z) (newId : string)
  : Response Completion * Store :=
  match user with
  | None => (json_error "Not authenticated" 401, db)
  | Some user =>
      match findHabit db id (user_id user) with
      | None => (json_error "Habit not found" 404, db)
      | Some habit =>
          match currentCompletion db habit id (user_id user) now with
          | Some existingCompletion =>
              (json_error "Already completed for this period" 400, db)
          | None =>
              if existsb (fun c => bool_decide (completion_id c = newId)) (completion_table db)
              then (json_error "Internal server error" 500, db)
              else
                let completion :=
                  {| completion_id := newId;
                     habitId := id;
                     userId := user_id user;
                     notes := option_map trim body_notes;
                     completedAt := now |} in
                (json_ok completion 201,
                 set_completions db (completion_table db ++ [completion]))
          end
      end
  end.

Definition checkin_DELETE (user : option User) (db : Store) (id : string) (now : Z)
  : Response string * Store :=
  match user with
  | None => (json_error "Not authenticated" 401, db)
  | Some user =>
      match findHabit db id (user_id user) with
      | None => (json_error "Habit not found" 404, db)
      | Some habit =>
          match currentCompletion db habit id (user_id user) now with
          | None => (json_error "No completion found for this period" 404, db)
          | Some completion =>
              (json_ok "Check-in removed successfully" 200,
               set_completions db
                 (filter (fun c => completion_id c <> completion_id completion)
                         (completion_table db)))
          end
      end
  end.

(** ** Accounts: signup, login, profile update *)

(** The [select] of the account handlers: a user without the password. *)
Record UserView := {
  view_id : string;
  view_email : string;
  view_username : string;
  view_bio : option string;
  view_avatar : option string
}.

Definition select_user (u : User) : UserView :=
  {| view_id := user_id u; view_email := email u; view_username := username u;
     view_bio := bio u; view_avatar := avatar u |}.

Definition auth_cookie (token : string) : Cookie :=
  {| cookie_name := "auth-token"; cookie_value := token;
     cookie_maxAge := 60 * 60 * 24 * 7 |}.

Definition with_cookie {A} (r : Response A) (c : Cookie) : Response A :=
  {| status := status r; body := body r; set_cookie := Some c |}.

(** [equals] with [mode: "insensitive"], on values that hold none of the
    pattern characters of the database's match: equality of the
    lower-cased strings. *)
Definition equals_insensitive (a b : string) : bool :=
  bool_decide (toLowerCase a = toLowerCase b).

(** [/^(?=.*[a-z])(?=.*[A-Z])(?=.*\d)[A-Za-z\d@$!%*?&]{8,}$/] *)
Definition password_char (c : ascii) : bool :=
  is_lower c || is_upper c || is_digit c
  || existsb (Ascii.eqb c) (list_ascii_of_string "@$!%*?&").

Definition password_regex (s : string) : bool :=
  some_char is_lower s && some_char is_upper s && some_char is_digit s
  && all_chars password_char s && (8 <=? strlen s).

(** [/^[a-zA-Z0-9_-]+$/] *)
Definition username_char (c : ascii) : bool :=
  is_lower c || is_upper c || is_digit c || Ascii.eqb c "_" || Ascii.eqb c "-".

Definition username_regex (s : string) : bool :=
  all_chars username_char s && (1 <=? strlen s).

(** [signupSchema.parse]: the message of the first issue, or the parsed
    (trimmed, lower-cased) fields. *)
Definition signupSchema (email password username : string)
  : string + (string * string * string) :=
  if negb (isEmail email) then inl "Invalid email address"
  else if strlen email <? 1 then inl "Email is required"
  else if 255 <? strlen email then inl "Email is too long"
  else if strlen password <? 8 then inl "Password must be at least 8 characters"
  else if 100 <? strlen password then inl "Password is too long"
  else if negb (password_regex password) then
    inl "Password must contain at least one uppercase letter, one lowercase letter, and one number"
  else if strlen username <? 3 then inl "Username must be at least 3 characters"
  else if 30 <? strlen username then inl "Username is too long"
  else if negb (username_regex username) then
    inl "Username can only contain letters, numbers, underscores, and hyphens"
  else inr (toLowerCase (trim email), password, trim username).

Definition set_users (db : Store) (rows : list User) : Store :=
  {| user_table := rows; habit_table := habit_table db;
     completion_table := completion_table db; friendship_table := friendship_table db |}.

(** The body of a successful signup: [success: true], the row selected
    after the insert (the view and [createdAt]) and the message. *)
Record SignupPayload := {
  signup_success : bool;
  signup_user : UserView;
  signup_user_createdAt : Z;
  signup_message : string
}.

(** POST /api/auth/signup.  [now] is the time of the insert, the
    [createdAt] of the new row; [newId] is the identifier generated for
    it.  The repository has two versions of the handler; they differ in a
    guard on the configuration and in timeouts around the two queries, not
    in the lookup, in the row created or in the response. *)
Definition signup_POST (db : Store) (body_email body_password body_username : string)
    (now : Z) (newId : string) : Response SignupPayload * Store :=
  match signupSchema body_email body_password body_username with
  | inl message => (json_error message 400, db)
  | inr (email', password', username') =>
      let existingUser :=
        find (fun u => equals_insensitive (email u) email'
                       || equals_insensitive (username u) username')
             (user_table db) in
      match existingUser with
      | Some existingUser =>
          (json_error
             (if bool_decide (toLowerCase (email existingUser) = toLowerCase email')
              then "Email already registered"
              else "Username already taken")
             400, db)
      | None =>
          if existsb (fun u => bool_decide (user_id u = newId)) (user_table db)
          then (json_error "Registration failed. Please try again later." 500, db)
          else
            let hashedPassword := hashPassword password' in
            let newUser :=
              {| user_id := newId; email := email'; username := username';
                 password := hashedPassword; bio := None; avatar := None |} in
            let token := generateToken (user_id newUser) in
            (with_cookie
               (json_ok {| signup_success := true;
                           signup_user := select_user newUser;
                           signup_user_createdAt := now;
                           signup_message := "Registration successful" |} 201)
               (auth_cookie token),
             set_users db (user_table db ++ [newUser]))
      end
  end.

(** [loginSchema.parse] *)
Definition loginSchema (email password : string) : string + (string * string) :=
  if negb (isEmail email) then inl "Invalid email address"
  else if strlen password <? 1 then inl "Password is required"
  else inr (email, password).

(** [prisma.user.findFirst] by email, [mode: "insensitive"]. *)
Definition findUserByEmail (db : Store) (email' : string) : option User :=
  find (fun u => equals_insensitive (email u) email') (user_table db).

(** POST /api/auth/login *)
Definition login_POST (db : Store) (body_email body_password : string)
  : Response UserView :=
  match loginSchema body_email body_password with
  | inl errorMessage => json_error errorMessage 400
  | inr (email', password') =>
      match findUserByEmail db (toLowerCase email') with
      | None => json_error "Invalid email or password" 401
      | Some user =>
          let isValidPassword := verifyPassword password' (password user) in
          if negb isValidPassword then json_error "Invalid email or password" 401
          else
            let token := generateToken (user_id user) in
            with_cookie (json_ok (select_user user) 200) (auth_cookie token)
      end
  end.

(** [updateProfileSchema.parse]: every field is optional. *)
Definition updateProfileSchema (new_username new_bio new_avatar : option string)
  : option string :=
  if match new_username with Some u => strlen u <? 3 | None => false end
  then Some "Username must be at least 3 characters"
  else if match new_bio with Some b => 500 <? strlen b | None => false end
  then Some "Bio must be less than 500 characters"
  else if match new_avatar with Some a => negb (isUrl a) | None => false end
  then Some "Invalid avatar URL"
  else None.

(** [data: updateData] on one row: the fields present replace the row's. *)
Definition update_user (u : User) (new_username new_bio new_avatar : option string) : User :=
  {| user_id := user_id u;
     email := email u;
     username := default (username u) new_username;
     password := password u;
     bio := match new_bio with Some b => Some b | None => bio u end;
     avatar := match new_avatar with Some a => Some a | None => avatar u end |}.

(** PUT /api/profile.  The lookup for a duplicate is
    [findUnique({ where: { username } })]: an exact match.  The update
    throws (status 500) when the row is gone or when the unique index on
    [username] already holds the new value in another row. *)
Definition profile_PUT (user : option User) (db : Store)
    (new_username new_bio new_avatar : option string) : Response UserView * Store :=
  match user with
  | None => (json_error "Not authenticated" 401, db)
  | Some user =>
      match updateProfileSchema new_username new_bio new_avatar with
      | Some message => (json_error message 400, db)
      | None =>
          let existingUser :=
            match new_username with
            | Some u =>
                if negb (bool_decide (u = "")) && negb (bool_decide (u = username user))
                then find (fun x => bool_decide (username x = u)) (user_table db)
                else None
            | None => None
            end in
          match existingUser with
          | Some _ => (json_error "Username already taken" 400, db)
          | None =>
              match find (fun x => bool_decide (user_id x = user_id user)) (user_table db) with
              | None => (json_error "Internal server error" 500, db)
              | Some row =>
                  let updatedUser := update_user row new_username new_bio new_avatar in
                  if existsb (fun x => negb (bool_decide (user_id x = user_id user))
                                       && bool_decide (username x = username updatedUser))
                             (user_table db)
                  then (json_error "Internal server error" 500, db)
                  else
                    (json_ok (select_user updatedUser) 200,
                     set_users db
                       (map (fun x => if bool_decide (user_id x = user_id user)
                                      then updatedUser else x)
                            (user_table db)))
              end
          end
      end
  end.

(** ** Invariants of the store *)

(** No two users' usernames are equal up to case. *)
Definition usernames_unique_ci (db : Store) : Prop :=
  NoDup (map (fun u => toLowerCase (username u)) (user_table db)).

(** Descending order of timestamps. *)
Definition Z_desc (a b : Z) : Prop := b <= a.

(** Descending order of the feed. *)
Definition activity_desc (a b : Activity) : Prop :=
  completedAt (activity b) <= completedAt (activity a).

(** The primary key of the completion table. *)
Definition completion_ids_unique (db : Store) : Prop :=
  NoDup (map completion_id (completion_table db)).

(** A completion records the owner of its habit. *)
Definition completions_owned (db : Store) : Prop :=
  forall c h, c ∈ completion_table db -> h ∈ habit_table db ->
    habitId c = habit_id h -> userId c = habit_userId h.

(** [t] lies in the period of [now]: from its start, less than one period
    later. *)
Definition inCurrentPeriod (f : Frequency) (now t : Z) : Prop :=
  periodStart f now <= t < periodStart f now + periodDays f * msPerDay.

(** Both loops are one walk: the period of each completion is compared
    with a cursor that steps back [step] days at each match. *)
Fixpoint streakLoop (norm : Z -> Z) (step : Z) (l : list Completion)
    (cursor : Z) (acc : nat) : nat :=
  match l with
  | [] => acc
  | c :: rest =>
      if norm (completedAt c) =? cursor then
        streakLoop norm step rest (addDays cursor (- step)) (S acc)
      else if norm (completedAt c) <? cursor then acc
      else streakLoop norm step rest cursor acc
  end.

(** ** Sample data for the examples *)

(** Wednesday 2024-01-10, 12:00 UTC. *)
Definition wed_noon : Z := 1704888000000.

Definition sample_user (id uname : string) : User :=
  {| user_id := id; email := uname +:+ "@example.com"; username := uname;
     password := "hash:" +:+ uname; bio := None; avatar := None |}.

Definition sample_habit (id uid : string) (f : Frequency) : Habit :=
  {| habit_id := id; habit_userId := uid; name := "Read"; category := study;
     frequency := f; habit_notes := None; color := "#3b82f6"; habit_createdAt := 0 |}.

Definition sample_completion (n : nat) (hid uid : string) (t : Z) : Completion :=
  {| completion_id := String (ascii_of_nat (65 + n)) EmptyString;
     habitId := hid; userId := uid; completedAt := t; notes := None |}.

(** One completion of habit ["h1"] by user ["u1"] at the time of day of
    [now] in each of the [n] periods of [days] days back from [now]. *)
Definition sample_run (n : nat) (days : Z) (now : Z) : list Completion :=
  map (fun i => sample_completion i "h1" "u1" (now - Z.of_nat i * (days * msPerDay)))
      (seq 0 n).

Definition sample_store (us : list User) (hs : list Habit) (cs : list Completion)
    (fs : list Friendship) : Store :=
  {| user_table := us; habit_table := hs; completion_table := cs; friendship_table := fs |}.

Definition sample_friendship (id follower followed : string) : Friendship :=
  {| friendship_id := id; followerId := follower; followingId := followed |}.

(** Three users; a daily habit of ["u1"] completed yesterday, a weekly
    habit of ["u2"] completed two hours ago; ["u1"] follows ["u2"]. *)
Definition sample_world : Store :=
  sample_store
    [sample_user "u1" "ann"; sample_user "u2" "bob"; sample_user "u3" "cat"]
    [sample_habit "h1" "u1" daily; sample_habit "h2" "u2" weekly]
    [sample_completion 0 "h1" "u1" (wed_noon - msPerDay);
     sample_completion 1 "h2" "u2" (wed_noon - 2 * 3600000)]
    [sample_friendship "f1" "u1" "u2"].

(** The same with a habit of ["u3"], completed three hours ago, and
    ["u1"] following ["u3"] too. *)
Definition sample_world2 : Store :=
  sample_store
    (user_table sample_world)
    (habit_table sample_world ++ [sample_habit "h3" "u3" daily])
    (completion_table sample_world
     ++ [sample_completion 2 "h3" "u3" (wed_noon - 3 * 3600000)])
    (friendship_table sample_world ++ [sample_friendship "f2" "u1" "u3"]).

(** ** POST /api/friends and DELETE /api/friends/[userId] *)

Definition set_friendships (db : Store) (rows : list Friendship) : Store :=
  {| user_table := user_table db; habit_table := habit_table db;
     completion_table := completion_table db; friendship_table := rows |}.

(** [followSchema.parse] *)
Definition followSchema (body_userId : string) : string + string :=
  if strlen body_userId <? 1 then inl "User ID is required" else inr body_userId.

(** [prisma.friendship.findUnique] on the pair (follower, followed). *)
Definition findFriendship (db : Store) (follower followed : string) : option Friendship :=
  find (fun f => bool_decide (followerId f = follower) && bool_decide (followingId f = followed))
       (friendship_table db).

(** POST: follow a user.  [newId] is the identifier generated for the new
    row, refused by the primary key when it is already there. *)
Definition friends_POST (user : option User) (db : Store) (body_userId : string)
    (newId : string) : Response Friendship * Store :=
  match user with
  | None => (json_error "Not authenticated" 401, db)
  | Some user =>
      match followSchema body_userId with
      | inl message => (json_error message 400, db)
      | inr target =>
          if bool_decide (target = user_id user)
          then (json_error "Cannot follow yourself" 400, db)
          else
            match find (fun u => bool_decide (user_id u = target)) (user_table db) with
            | None => (json_error "User not found" 404, db)
            | Some targetUser =>
                match findFriendship db (user_id user) target with
                | Some existingFriendship =>
                    (json_error "Already following this user" 400, db)
                | None =>
                    if existsb (fun f => bool_decide (friendship_id f = newId))
                               (friendship_table db)
                    then (json_error "Internal server error" 500, db)
                    else
                      let friendship :=
                        {| friendship_id := newId; followerId := user_id user;
                           followingId := target |} in
                      (json_ok friendship 201,
                       set_friendships db (friendship_table db ++ [friendship]))
                end
            end
      end
  end.

(** DELETE: unfollow. *)
Definition friends_DELETE (user : option User) (db : Store) (target : string)
  : Response string * Store :=
  match user with
  | None => (json_error "Not authenticated" 401, db)
  | Some user =>
      match findFriendship db (user_id user) target with
      | None => (json_error "Not following this user" 404, db)
      | Some friendship =>
          (json_ok "Unfollowed successfully" 200,
           set_friendships db
             (filter (fun f => friendship_id f <> friendship_id friendship)
                     (friendship_table db)))
      end
  end.

(** ** GET /api/users/search *)

(** [orderBy: { createdAt: "desc" }] on users.  The user rows of the model
    carry no creation time, so the order the query gives is a parameter;
    it rearranges the rows it is given. *)
Variable orderBy_user_createdAt_desc : list User -> list User.
Hypothesis orderBy_user_createdAt_desc_Permutation :
  forall rows, orderBy_user_createdAt_desc rows ≡ₚ rows.

(** [{ contains: query, mode: "insensitive" }].  The handler hands the
    query to the database as it arrives; which fields match it is decided
    there, by a pattern match that ignores case, so the match is a
    parameter: [contains_insensitive field query]. *)
Variable contains_insensitive : string -> string -> bool.

(** For the examples, a match of that kind: the pattern is the query
    between two [%]; in it [%] stands for any run of characters, [_] for
    any one character, and a backslash takes the next character as it
    is. *)
Definition backslash : ascii := ascii_of_nat 92.

Fixpoint like (pattern : string) : string -> bool :=
  match pattern with
  | EmptyString => fun s => match s with EmptyString => true | String _ _ => false end
  | String c pattern' =>
      if Ascii.eqb c "%" then
        fix any (s : string) : bool :=
          like pattern' s
          || match s with EmptyString => false | String _ s' => any s' end
      else if Ascii.eqb c "_" then
        fun s => match s with EmptyString => false | String _ s' => like pattern' s' end
      else if Ascii.eqb c backslash then
        match pattern' with
        | EmptyString => fun _ => false
        | String d pattern'' =>
            fun s => match s with
                     | EmptyString => false
                     | String e s' => Ascii.eqb d e && like pattern'' s'
                     end
        end
      else
        fun s => match s with
                 | EmptyString => false
                 | String e s' => Ascii.eqb c e && like pattern' s'
                 end
  end.

Definition sample_contains (field query : string) : bool :=
  like ("%" +:+ toLowerCase query +:+ "%") (toLowerCase field).

(** A row of the answer: the fields of the [select] and the three
    counts. *)
Record SearchResult := {
  sr_id : string;
  sr_username : string;
  sr_avatar : option string;
  sr_bio : option string;
  sr_totalHabits : nat;
  sr_totalCompletions : nat;
  sr_followersCount : nat
}.

(** The [where] of the search: not the viewer, not followed yet, and the
    username or the email matched by the query. *)
Definition searchable (db : Store) (viewer : User) (query : string) (u : User) : Prop :=
  user_id u <> user_id viewer
  /\ (user_id u ∉ followedUserIds db (user_id viewer))
  /\ (contains_insensitive (username u) query = true
      \/ contains_insensitive (email u) query = true).

Global Instance searchable_dec db viewer query u : Decision (searchable db viewer query u).
Proof. unfold searchable. apply _. Defined.

(** [searchParams.get("q") || ""] *)
Definition search_query (q : option string) : string :=
  match q with
  | Some (String c s) => String c s
  | _ => EmptyString
  end.

Definition users_search_GET (user : option User) (db : Store) (q : option string)
  : Response (list SearchResult) :=
  match user with
  | None => json_error "Not authenticated" 401
  | Some user =>
      let query := search_query q in
      let users :=
        take 20 (orderBy_user_createdAt_desc
                   (filter (searchable db user query) (user_table db))) in
      let usersWithStats :=
        map (fun u =>
               {| sr_id := user_id u;
                  sr_username := username u;
                  sr_avatar := avatar u;
                  sr_bio := bio u;
                  sr_totalHabits :=
                    length (filter (fun h => habit_userId h = user_id u) (habit_table db));
                  sr_totalCompletions :=
                    length (filter (fun c => userId c = user_id u) (completion_table db));
                  sr_followersCount :=
                    length (filter (fun f => followingId f = user_id u)
                                   (friendship_table db)) |})
            users in
      json_ok usersWithStats 200
  end.

(** ** POST /api/habits and PUT /api/habits/[id] *)

Definition set_habits (db : Store) (rows : list Habit) : Store :=
  {| user_table := user_table db; habit_table := rows;
     completion_table := completion_table db; friendship_table := friendship_table db |}.

(** [z.enum(["health", "study", "personal", "work"])] *)
Definition parse_category (s : string) : option Category :=
  if String.eqb s "health" then Some health
  else if String.eqb s "study" then Some study
  else if String.eqb s "personal" then Some personal
  else if String.eqb s "work" then Some work
  else None.

(** [z.enum(["daily", "weekly"])] *)
Definition parse_frequency (s : string) : option Frequency :=
  if String.eqb s "daily" then Some daily
  else if String.eqb s "weekly" then Some weekly
  else None.

(** [createHabitSchema.parse]: the message of the first issue, or the
    parsed name, category and frequency ([notes] and [color] are any
    strings). *)
Definition createHabitSchema (body_name body_category body_frequency : string)
  : string + (string * Category * Frequency) :=
  if strlen body_name <? 1 then inl "Habit name is required"
  else if 100 <? strlen body_name then inl "Habit name too long"
  else
    match parse_category body_category with
    | None => inl "Invalid category"
    | Some category' =>
        match parse_frequency body_frequency with
        | None => inl "Frequency must be daily or weekly"
        | Some frequency' => inr (body_name, category', frequency')
        end
    end.

(** POST: create a habit.  The name is checked as it arrives and stored
    trimmed; [color || "#3b82f6"] takes the default for an empty colour
    too. *)
Definition habits_POST (user : option User) (db : Store)
    (body_name body_category body_frequency : string) (body_notes body_color : option string)
    (now : Z) (newId : string) : Response Habit * Store :=
  match user with
  | None => (json_error "Not authenticated" 401, db)
  | Some user =>
      match createHabitSchema body_name body_category body_frequency with
      | inl message => (json_error message 400, db)
      | inr (name', category', frequency') =>
          let existingHabit :=
            find (fun h => bool_decide (habit_userId h = user_id user)
                           && bool_decide (name h = trim name'))
                 (habit_table db) in
          match existingHabit with
          | Some _ => (json_error "You already have a habit with this name" 400, db)
          | None =>
              if existsb (fun h => bool_decide (habit_id h = newId)) (habit_table db)
              then (json_error "Internal server error" 500, db)
              else
                let habit :=
                  {| habit_id := newId;
                     habit_userId := user_id user;
                     name := trim name';
                     category := category';
                     frequency := frequency';
                     habit_notes := option_map trim body_notes;
                     color := match body_color with
                              | Some (String c s) => String c s
                              | _ => "#3b82f6"
                              end;
                     habit_createdAt := now |} in
                (json_ok habit 201, set_habits db (habit_table db ++ [habit]))
          end
      end
  end.

(** [updateHabitSchema.parse]: every field is optional; a category or a
    frequency outside the enumerations is outside the input type. *)
Definition updateHabitSchema (new_name : option string) : option string :=
  match new_name with
  | Some n =>
      if strlen n <? 1 then Some "Habit name is required"
      else if 100 <? strlen n then Some "Habit name too long"
      else None
  | None => None
  end.

(** [data: { ...updateData, name: updateData.name?.trim(),
    notes: updateData.notes?.trim() }] on one row. *)
Definition update_habit (h : Habit) (new_name : option string)
    (new_category : option Category) (new_frequency : option Frequency)
    (new_notes new_color : option string) : Habit :=
  {| habit_id := habit_id h;
     habit_userId := habit_userId h;
     name := match new_name with Some n => trim n | None => name h end;
     category := default (category h) new_category;
     frequency := default (frequency h) new_frequency;
     habit_notes := match new_notes with Some n => Some (trim n) | None => habit_notes h end;
     color := default (color h) new_color;
     habit_createdAt := habit_createdAt h |}.

(** PUT: update a habit of the requesting user. *)
Definition habit_PUT (user : option User) (db : Store) (id : string)
    (new_name : option string) (new_category : option Category)
    (new_frequency : option Frequency) (new_notes new_color : option string)
  : Response Habit * Store :=
  match user with
  | None => (json_error "Not authenticated" 401, db)
  | Some user =>
      match updateHabitSchema new_name with
      | Some message => (json_error message 400, db)
      | None =>
          match findHabit db id (user_id user) with
          | None => (json_error "Habit not found" 404, db)
          | Some existingHabit =>
              let duplicateHabit :=
                match new_name with
                | Some n =>
                    if negb (bool_decide (n = "")) && negb (bool_decide (n = name existingHabit))
                    then find (fun h => bool_decide (habit_userId h = user_id user)
                                        && bool_decide (name h = trim n)
                                        && negb (bool_decide (habit_id h = id)))
                              (habit_table db)
                    else None
                | None => None
                end in
              match duplicateHabit with
              | Some _ => (json_error "You already have a habit with this name" 400, db)
              | None =>
                  let habit :=
                    update_habit existingHabit new_name new_category new_frequency
                      new_notes new_color in
                  (json_ok habit 200,
                   set_habits db
                     (map (fun h => if bool_decide (habit_id h = id)
                                    then update_habit h new_name new_category new_frequency
                                           new_notes new_color
                                    else h)
                          (habit_table db)))
              end
          end
      end
  end.

(** ** Further invariants of the store *)

Global Instance User_eq_dec : EqDecision User.
Proof. solve_decision. Defined.

Global Instance Category_eq_dec : EqDecision Category.
Proof. solve_decision. Defined.

Global Instance Habit_eq_dec : EqDecision Habit.
Proof. solve_decision. Defined.

(** No user follows themselves. *)
Definition no_self_follow (db : Store) : Prop :=
  forall f, f ∈ friendship_table db -> followerId f <> followingId f.

(** The unique index on the pair (follower, followed). *)
Definition follow_pairs_unique (db : Store) : Prop :=
  NoDup (map (fun f => (followerId f, followingId f)) (friendship_table db)).

(** No two users' emails are equal up to case. *)
Definition emails_unique_ci (db : Store) : Prop :=
  NoDup (map (fun u => toLowerCase (email u)) (user_table db)).

(** The unique index on [username]: no two users' usernames are equal
    letter for letter. *)
Definition usernames_unique_exact (db : Store) : Prop :=
  NoDup (map username (user_table db)).

(** The primary key of the user table. *)
Definition user_ids_unique (db : Store) : Prop :=
  NoDup (map user_id (user_table db)).

(** The primary key of the habit table. *)
Definition habit_ids_unique (db : Store) : Prop :=
  NoDup (map habit_id (habit_table db)).

(** No user has two habits of one name, and the names are stored
    trimmed. *)
Definition habit_names_unique (db : Store) : Prop :=
  NoDup (map (fun h => (habit_userId h, name h)) (habit_table db)).

Definition habit_names_trimmed (db : Store) : Prop :=
  forall h, h ∈ habit_table db -> trim (name h) = name h.

(** A habit has at most one completion in each of its periods. *)
Definition one_completion_per_period (db : Store) : Prop :=
  forall h c1 c2,
    h ∈ habit_table db -> c1 ∈ completion_table db -> c2 ∈ completion_table db ->
    habitId c1 = habit_id h -> habitId c2 = habit_id h ->
    periodStart (frequency h) (completedAt c1) = periodStart (frequency h) (completedAt c2) ->
    c1 = c2.

(** ** The 30-row window *)

(** The rows of [run], in the order given, lie one in each of the periods
    back from the period of [now]: the first in the current period, the
    next in the period before, and so on. *)
Definition one_per_period_run (f : Frequency) (now : Z) (run : list Completion) : Prop :=
  forall i c, run !! i = Some c ->
    periodStart f (completedAt c) =
    periodStart f now - Z.of_nat i * (periodDays f * msPerDay).

(** Each of the [n] periods back from the period of [now] holds a
    completion of the habit: a run of [n] consecutive periods, whatever
    the number of completions in each. *)
Definition consecutive_periods (f : Frequency) (hid : string) (db : Store) (now : Z)
    (n : nat) : bool :=
  forallb (fun k =>
             existsb (fun c =>
                        bool_decide (habitId c = hid)
                        && (periodStart f (completedAt c) =?
                            periodStart f now - Z.of_nat k * (periodDays f * msPerDay)))
                     (completion_table db))
          (seq 0 n).

(** Every habit with a run of more than 30 consecutive periods is listed
    with a streak of 30. *)
Definition long_run_reported_as_30 (db : Store) (now : Z) : Prop :=
  forall u h n,
    h ∈ habit_table db -> habit_userId h = user_id u ->
    (30 < n)%nat -> consecutive_periods (frequency h) (habit_id h) db now n = true ->
    exists hs s,
      body (habits_GET (Some u) db now) = inr hs
      /\ s ∈ hs /\ hs_habit s = h /\ hs_streak s = 30%nat.

(** ["ann"] with a daily habit completed once on each of the 35 days up
    to Wednesday noon, and ["bob"], who follows her. *)
Definition sample_long_run : Store :=
  sample_store
    [sample_user "u1" "ann"; sample_user "u2" "bob"]
    [sample_habit "h1" "u1" daily]
    (rev (sample_run 35 1 wed_noon))
    [sample_friendship "f1" "u2" "u1"].

(** Sample identifiers ["c0"], ["c1"], ... *)
Definition sample_id (n : nat) : string :=
  "c" +:+ DecimalString.NilZero.string_of_uint (Nat.to_uint n).

(** A history made through the handlers: ["ann"] creates the daily habit
    ["h1"], checks in at the time of day of [now] on each of the [n] days
    up to [now], then makes the habit weekly. *)
Definition sample_daily_then_weekly (n : nat) (now : Z) : Store :=
  let ann := sample_user "u1" "ann" in
  let db0 := sample_store [ann] [] [] [] in
  let db1 := snd (habits_POST (Some ann) db0 "Read" "study" "daily" None None 0 "h1") in
  let db2 :=
    fold_left (fun db i =>
                 snd (checkin_POST (Some ann) db "h1" None
                        (now - Z.of_nat (n - 1 - i) * msPerDay) (sample_id i)))
              (seq 0 n) db1 in
  snd (habit_PUT (Some ann) db2 "h1" None None (Some weekly) None None).

(** * Properties *)

(** ** Calendar arithmetic *)

Ltac calendar :=
  unfold completionWeekStart, weekStart, today, getDay, setHours0, addDays,
    localDay, msPerDay in *;
  Z.to_euclidean_division_equations; lia.

Lemma setHours0_bounds t : setHours0 t <= t < setHours0 t + msPerDay.
Proof. calendar. Qed.

Lemma localDay_addDays t k : localDay (addDays t k) = localDay t + k.
Proof.
  unfold localDay, addDays.
  replace (t + k * msPerDay + tz) with (t + tz + k * msPerDay) by ring.
  apply Z.div_add. discriminate.
Qed.

Lemma localDay_setHours0 t : localDay (setHours0 t) = localDay t.
Proof.
  unfold setHours0, localDay at 1.
  replace (localDay t * msPerDay - tz + tz) with (localDay t * msPerDay) by ring.
  apply Z.div_mul. discriminate.
Qed.

Lemma setHours0_addDays t k : setHours0 (addDays t k) = addDays (setHours0 t) k.
Proof. unfold setHours0. rewrite localDay_addDays. unfold addDays. ring. Qed.

Lemma getDay_setHours0 t : getDay (setHours0 t) = getDay t.
Proof. unfold getDay. now rewrite localDay_setHours0. Qed.

Lemma getDay_range t : 0 <= getDay t < 7.
Proof. unfold getDay. apply Z.mod_pos_bound. lia. Qed.

(** The week start of [now] the handlers compute from [today] is the one
    the streak loop computes for a completion at [now]. *)
Lemma weekStart_completionWeekStart now : weekStart now = completionWeekStart now.
Proof.
  unfold weekStart, completionWeekStart, today.
  now rewrite getDay_setHours0, setHours0_addDays.
Qed.

Lemma setHours0_eq_iff t now :
  setHours0 t = setHours0 now <-> setHours0 now <= t < setHours0 now + msPerDay.
Proof. calendar. Qed.

Lemma completionWeekStart_bounds t :
  completionWeekStart t <= t < completionWeekStart t + 7 * msPerDay.
Proof.
  unfold completionWeekStart. rewrite setHours0_addDays.
  pose proof (setHours0_bounds t). pose proof (getDay_range t).
  unfold addDays, msPerDay in *. lia.
Qed.

Lemma completionWeekStart_eq_iff t now :
  completionWeekStart t = completionWeekStart now <->
  completionWeekStart now <= t < completionWeekStart now + 7 * msPerDay.
Proof.
  unfold completionWeekStart. rewrite !setHours0_addDays.
  unfold addDays, getDay, setHours0, localDay, msPerDay.
  Z.to_euclidean_division_equations; lia.
Qed.

Lemma periodStart_bounds f t :
  periodStart f t <= t < periodStart f t + periodDays f * msPerDay.
Proof.
  destruct f; simpl.
  - pose proof (setHours0_bounds t). lia.
  - apply completionWeekStart_bounds.
Qed.

Lemma periodStart_eq_iff f t now :
  periodStart f t = periodStart f now <-> inCurrentPeriod f now t.
Proof.
  unfold inCurrentPeriod. destruct f; simpl.
  - rewrite setHours0_eq_iff. lia.
  - apply completionWeekStart_eq_iff.
Qed.

(** The periods are the calendar's: a day starts at local midnight, a
    week on a Sunday. *)
Lemma setHours0_midnight t : (setHours0 t + tz) mod msPerDay = 0.
Proof.
  unfold setHours0. replace (localDay t * msPerDay - tz + tz) with (localDay t * msPerDay)
    by ring.
  apply Z.mod_mul. discriminate.
Qed.

Lemma getDay_completionWeekStart t : getDay (completionWeekStart t) = 0.
Proof.
  unfold completionWeekStart. rewrite getDay_setHours0.
  unfold getDay at 1. rewrite localDay_addDays. unfold getDay.
  Z.to_euclidean_division_equations; lia.
Qed.

(** ** The streak walk *)

Lemma dailyLoop_streakLoop l cursor acc :
  dailyLoop l cursor acc = streakLoop setHours0 1 l cursor acc.
Proof.
  revert cursor acc. induction l as [|c l IH]; intros cursor acc; simpl; [done|].
  now rewrite !IH.
Qed.

Lemma weeklyLoop_streakLoop l cursor acc :
  weeklyLoop l cursor acc = streakLoop completionWeekStart 7 l cursor acc.
Proof.
  revert cursor acc. induction l as [|c l IH]; intros cursor acc; simpl; [done|].
  now rewrite !IH.
Qed.

Lemma streak_streakLoop f l now :
  streak f l now =
  streakLoop (periodStart f) (periodDays f) l (periodStart f now) 0.
Proof.
  destruct f; simpl.
  - apply dailyLoop_streakLoop.
  - rewrite weekStart_completionWeekStart. apply weeklyLoop_streakLoop.
Qed.

(** A run of completions, one per period from the cursor backwards, moves
    the cursor past the run and counts each of them. *)
Lemma streakLoop_run norm step run : forall rest cursor acc,
  (forall i c, run !! i = Some c ->
     norm (completedAt c) = cursor - Z.of_nat i * (step * msPerDay)) ->
  streakLoop norm step (run ++ rest) cursor acc =
  streakLoop norm step rest
    (cursor - Z.of_nat (length run) * (step * msPerDay)) (acc + length run).
Proof.
  induction run as [|c run IH]; intros rest cursor acc Hrun.
  - simpl. f_equal; lia.
  - pose proof (Hrun 0%nat c eq_refl) as H0. simpl in H0.
    change ((c :: run) ++ rest) with (c :: (run ++ rest)).
    cbn [streakLoop]. replace (norm (completedAt c) =? cursor) with true
      by (symmetry; apply Z.eqb_eq; lia).
    rewrite IH.
    + f_equal; [unfold addDays; cbn [length]; lia | cbn [length]; lia].
    + intros i c' Hi. rewrite (Hrun (S i) c' Hi). unfold addDays. lia.
Qed.

(** The walk stops at a completion of a period before the cursor. *)
Lemma streakLoop_stop norm step c rest cursor acc :
  norm (completedAt c) < cursor ->
  streakLoop norm step (c :: rest) cursor acc = acc.
Proof.
  intros H. cbn [streakLoop].
  replace (norm (completedAt c) =? cursor) with false by (symmetry; apply Z.eqb_neq; lia).
  replace (norm (completedAt c) <? cursor) with true by (symmetry; apply Z.ltb_lt; lia).
  reflexivity.
Qed.

(** The walk counts at most one per completion. *)
Lemma streakLoop_le norm step l : forall cursor acc,
  (streakLoop norm step l cursor acc <= acc + length l)%nat.
Proof.
  induction l as [|c l IH]; intros cursor acc; cbn [streakLoop length]; [lia|].
  destruct (norm (completedAt c) =? cursor).
  - specialize (IH (addDays cursor (- step)) (S acc)). lia.
  - destruct (norm (completedAt c) <? cursor); [lia|].
    specialize (IH cursor acc). lia.
Qed.

Lemma streak_le_length f l now : (streak f l now <= length l)%nat.
Proof. rewrite streak_streakLoop. apply (streakLoop_le _ _ l _ 0%nat). Qed.

(** The statistics read nothing of a completion but its timestamp. *)
Lemma streakLoop_timestamps norm step l1 : forall l2 cursor acc,
  map completedAt l1 = map completedAt l2 ->
  streakLoop norm step l1 cursor acc = streakLoop norm step l2 cursor acc.
Proof.
  induction l1 as [|c1 l1 IH]; intros [|c2 l2] cursor acc Heq; try discriminate; [done|].
  injection Heq as Hc Hl. cbn [streakLoop]. rewrite Hc.
  now rewrite !(IH l2) by exact Hl.
Qed.

Lemma completedToday_timestamps f l1 : forall l2 now,
  map completedAt l1 = map completedAt l2 ->
  completedToday f l1 now = completedToday f l2 now.
Proof.
  induction l1 as [|c1 l1 IH]; intros [|c2 l2] now Heq; try discriminate; [done|].
  injection Heq as Hc Hl. unfold completedToday in *. cbn [existsb].
  rewrite Hc. f_equal. now apply IH.
Qed.

Lemma recentCompletions_timestamps l1 : forall l2 now,
  map completedAt l1 = map completedAt l2 ->
  length (recentCompletions l1 now) = length (recentCompletions l2 now).
Proof.
  unfold recentCompletions.
  induction l1 as [|c1 l1 IH]; intros [|c2 l2] now Heq; try discriminate; [done|].
  injection Heq as Hc Hl. rewrite !filter_cons, Hc.
  destruct (decide _); cbn [length]; now rewrite (IH l2).
Qed.

Lemma habitStats_timestamps f l1 l2 now :
  map completedAt l1 = map completedAt l2 ->
  habitStats f l1 now = habitStats f l2 now.
Proof.
  intros Heq. unfold habitStats, progress.
  rewrite !streak_streakLoop.
  rewrite (streakLoop_timestamps _ _ l1 l2) by exact Heq.
  rewrite (completedToday_timestamps f l1 l2) by exact Heq.
  now rewrite (recentCompletions_timestamps l1 l2).
Qed.

(** C3.  A history that starts with one completion in the period of
    [now] and one in each of the periods before it ([run], its [i]-th
    completion [i] periods back: days for a daily habit, weeks from Sunday
    for a weekly one), followed by nothing or by a completion that leaves
    at least one period out ([rest]), has a streak of the length of the
    run: [k + 1] for [k] earlier periods.  The walk stops at the gap,
    whatever follows it. *)
Theorem streak_consecutive_run f now run rest :
  (forall i c, run !! i = Some c ->
     periodStart f (completedAt c) =
     periodStart f now - Z.of_nat i * (periodDays f * msPerDay)) ->
  match rest with
  | [] => True
  | c :: _ =>
      periodStart f (completedAt c) <
      periodStart f now - Z.of_nat (length run) * (periodDays f * msPerDay)
  end ->
  streak f (run ++ rest) now = length run.
Proof.
  intros Hrun Hgap. rewrite streak_streakLoop, streakLoop_run by exact Hrun.
  destruct rest as [|c rest]; [reflexivity|].
  now apply streakLoop_stop.
Qed.

(** ** Completed in the current period *)

Lemma completedToday_daily_iff l now :
  completedToday daily l now = true <->
  exists c, c ∈ l /\ periodStart daily (completedAt c) = periodStart daily now.
Proof.
  unfold completedToday. rewrite existsb_exists. simpl. unfold today.
  split; intros (c & Hin & Hc); exists c.
  - split; [now apply list_elem_of_In | now apply Z.eqb_eq].
  - split; [now apply list_elem_of_In | now apply Z.eqb_eq].
Qed.

(** For a weekly habit the comparison holds only for a completion of the
    current week that was made at local midnight. *)
Lemma completedToday_weekly_iff l now :
  completedToday weekly l now = true <->
  exists c, c ∈ l /\ periodStart weekly (completedAt c) = periodStart weekly now
            /\ setHours0 (completedAt c) = completedAt c.
Proof.
  unfold completedToday. rewrite existsb_exists. simpl.
  split.
  - intros (c & Hin & Hc). exists c. split; [now apply list_elem_of_In|].
    apply Z.eqb_eq in Hc. rewrite weekStart_completionWeekStart in Hc.
    unfold completionWeekStart in *. rewrite !setHours0_addDays in *.
    pose proof (setHours0_bounds (completedAt c)).
    pose proof (getDay_range (completedAt c)). pose proof (getDay_range now).
    unfold addDays, getDay, setHours0, localDay, msPerDay in *.
    Z.to_euclidean_division_equations; lia.
  - intros (c & Hin & Hc & Hmid). exists c. split; [now apply list_elem_of_In|].
    apply Z.eqb_eq. rewrite weekStart_completionWeekStart, <- Hc.
    unfold completionWeekStart. rewrite setHours0_addDays, Hmid. reflexivity.
Qed.

(** ** Progress *)

Lemma Qfloor_Qmake a b : Qfloor (a # b) = a / Z.pos b.
Proof. reflexivity. Qed.

Lemma Math_round_ratio n e :
  0 < e ->
  Math_round ((inject_Z n / inject_Z e) * inject_Z 100)%Q = round_div (100 * n) e.
Proof.
  intros He. unfold Math_round, round_div.
  destruct e as [|e|e]; try lia.
  assert (Heq : ((inject_Z n / inject_Z (Z.pos e)) * inject_Z 100 + (1 # 2) ==
                 (2 * (100 * n) + Z.pos e) # (2 * e))%Q).
  { unfold Qeq, Qdiv, Qmult, Qplus, Qinv, inject_Z. simpl. lia. }
  rewrite (Qfloor_comp _ _ Heq), Qfloor_Qmake. reflexivity.
Qed.

Lemma expectedCompletions_value f :
  expectedCompletions f = match f with daily => 30 | weekly => 5 end.
Proof. now destruct f. Qed.

Lemma progress_round_div f l now :
  progress f l now =
  Z.min 100 (round_div (100 * Z.of_nat (length (recentCompletions l now)))
                       (expectedCompletions f)).
Proof.
  unfold progress. rewrite Math_round_ratio; [reflexivity|].
  rewrite expectedCompletions_value. destruct f; lia.
Qed.

(** [round_div a b] is the integer nearest to [a / b]. *)
Lemma round_div_nearest a b :
  0 < b -> 2 * b * round_div a b - b <= 2 * a < 2 * b * round_div a b + b.
Proof. intros Hb. unfold round_div. Z.to_euclidean_division_equations; nia. Qed.

(** No count of completions is half-way between two percentages, so the
    direction in which a tie would be rounded does not matter. *)
Lemma progress_no_tie f n r :
  2 * (100 * n) <> 2 * expectedCompletions f * r + expectedCompletions f.
Proof. rewrite expectedCompletions_value. destruct f; lia. Qed.

Lemma round_div_mono a a' b : 0 < b -> a <= a' -> round_div a b <= round_div a' b.
Proof. intros Hb Ha. unfold round_div. apply Z.div_le_mono; lia. Qed.

Lemma round_div_nonneg a b : 0 < b -> 0 <= a -> 0 <= round_div a b.
Proof. intros Hb Ha. unfold round_div. apply Z.div_pos; lia. Qed.

Lemma recentCompletions_insert l1 l2 c now :
  now - 30 * msPerDay <= completedAt c ->
  length (recentCompletions (l1 ++ c :: l2) now) =
  S (length (recentCompletions (l1 ++ l2) now)).
Proof.
  intros Hc. unfold recentCompletions.
  rewrite !filter_app, filter_cons_True, !length_app; [cbn [length]; lia|].
  unfold addDays. lia.
Qed.

(** C4.  The progress is [min(100, round(100 * recent / expected))], with
    [recent] the number of completions not older than 30 days before
    [now] and [expected] 30 (daily) or 5 (weekly); it lies between 0 and
    100, and a further completion of the last 30 days, wherever it is put
    in the list, does not lower it. *)
Theorem progress_formula_bounds_monotone f l now :
  progress f l now = progressPercent_spec f l now
  /\ 0 <= progress f l now <= 100
  /\ forall l1 l2 c,
       l = l1 ++ l2 ->
       now - 30 * msPerDay <= completedAt c ->
       progress f l now <= progress f (l1 ++ c :: l2) now.
Proof.
  assert (He : 0 < expectedCompletions f)
    by (rewrite expectedCompletions_value; destruct f; lia).
  split; [|split].
  - rewrite progress_round_div, expectedCompletions_value.
    unfold progressPercent_spec, recentCompletions, addDays.
    replace (now + -30 * msPerDay) with (now - 30 * msPerDay) by ring.
    reflexivity.
  - rewrite progress_round_div.
    pose proof (round_div_nonneg
                  (100 * Z.of_nat (length (recentCompletions l now)))
                  (expectedCompletions f) He ltac:(lia)).
    lia.
  - intros l1 l2 c -> Hc.
    rewrite !progress_round_div, recentCompletions_insert by exact Hc.
    apply Z.min_le_compat_l, round_div_mono; lia.
Qed.

(** ** Ordering of the fetched completions *)

Local Instance Z_desc_trans : Transitive Z_desc.
Proof. unfold Z_desc. intros a b c ? ?. lia. Qed.

Local Instance Z_desc_antisymm : AntiSymm (=) Z_desc.
Proof. unfold Z_desc. intros a b ? ?. lia. Qed.

Local Instance completedAt_desc_total : Total completedAt_desc.
Proof. unfold completedAt_desc. intros a b. lia. Qed.

Local Instance completedAt_desc_trans : Transitive completedAt_desc.
Proof. unfold completedAt_desc. intros a b c ? ?. lia. Qed.

Lemma orderBy_sorted rows : Sorted completedAt_desc (orderBy_completedAt_desc rows).
Proof. apply Sorted_merge_sort; apply _. Qed.

Lemma orderBy_Permutation rows : orderBy_completedAt_desc rows ≡ₚ rows.
Proof. apply merge_sort_Permutation. Qed.

(** The timestamps come out of the query in one order, however the rows
    are stored. *)
Lemma orderBy_timestamps rows1 rows2 :
  rows1 ≡ₚ rows2 ->
  map completedAt (orderBy_completedAt_desc rows1) =
  map completedAt (orderBy_completedAt_desc rows2).
Proof.
  intros Hperm. apply (Sorted_unique Z_desc).
  - apply (Sorted_fmap _ completedAt_desc); [auto | apply orderBy_sorted].
  - apply (Sorted_fmap _ completedAt_desc); [auto | apply orderBy_sorted].
  - apply fmap_Permutation. now rewrite !orderBy_Permutation.
Qed.

Lemma take_orderBy_timestamps n rows1 rows2 :
  rows1 ≡ₚ rows2 ->
  map completedAt (take n (orderBy_completedAt_desc rows1)) =
  map completedAt (take n (orderBy_completedAt_desc rows2)).
Proof.
  intros Hperm.
  change (completedAt <$> take n (orderBy_completedAt_desc rows1) =
          completedAt <$> take n (orderBy_completedAt_desc rows2)).
  rewrite !fmap_take. f_equal. now apply orderBy_timestamps.
Qed.

(** C2.  The statistics of a habit are computed from its 30 latest
    completions as the query orders them (descending by timestamp):
    two tables that hold the same rows in different orders give the same
    streak, progress and completed-today flag. *)
Theorem habitStats_order_independent f rows1 rows2 now :
  rows1 ≡ₚ rows2 ->
  habitStats f (take 30 (orderBy_completedAt_desc rows1)) now =
  habitStats f (take 30 (orderBy_completedAt_desc rows2)) now.
Proof.
  intros Hperm. apply habitStats_timestamps. now apply take_orderBy_timestamps.
Qed.

(** The loops themselves take the list as it comes: the order is the
    query's. *)
Lemma lastCompletions_Permutation db1 db2 hid :
  completion_table db1 ≡ₚ completion_table db2 ->
  map completedAt (lastCompletions db1 hid) = map completedAt (lastCompletions db2 hid).
Proof.
  intros Hperm. unfold lastCompletions. apply take_orderBy_timestamps.
  now rewrite Hperm.
Qed.

Lemma habits_GET_order_independent user db1 db2 now :
  habit_table db1 = habit_table db2 ->
  completion_table db1 ≡ₚ completion_table db2 ->
  habits_GET user db1 now = habits_GET user db2 now.
Proof.
  intros Hh Hperm. unfold habits_GET. destruct user as [user|]; [|reflexivity].
  rewrite Hh. f_equal. apply map_ext. intros habit.
  pose proof (habitStats_timestamps (frequency habit) _ _ now
                (lastCompletions_Permutation db1 db2 (habit_id habit) Hperm)) as Hs.
  injection Hs as Hs1 Hs2 Hs3. rewrite Hs1, Hs2, Hs3.
  f_equal. now rewrite Hperm.
Qed.

(** ** The 30-row window *)

Lemma streak_take_30 f l now : (streak f (take 30 l) now <= 30)%nat.
Proof.
  pose proof (streak_le_length f (take 30 l) now) as H.
  rewrite length_take in H. lia.
Qed.

Lemma Math_max_le b x xs :
  (x <= b)%nat -> Forall (fun y => (y <= b)%nat) xs -> (Math_max x xs <= b)%nat.
Proof.
  unfold Math_max. revert x. induction xs as [|y xs IH]; intros x Hx Hxs; simpl; [done|].
  inversion Hxs; subst. apply IH; [lia | done].
Qed.

Lemma Math_max_ge xs : forall x y, y ∈ x :: xs -> (y <= Math_max x xs)%nat.
Proof.
  unfold Math_max. induction xs as [|z xs IH]; intros x y Hy; cbn [foldl].
  - apply list_elem_of_singleton in Hy. lia.
  - pose proof (IH (Nat.max x z) (Nat.max x z) ltac:(left)) as Hmax.
    apply elem_of_cons in Hy as [->|Hy]; [lia|].
    apply elem_of_cons in Hy as [->|Hy]; [lia|].
    apply IH. now right.
Qed.

(** Each handler walks the 30 latest completions, and counts at most one
    per completion. *)
Lemma habits_GET_streak_le_30 user db now hs :
  body (habits_GET user db now) = inr hs ->
  Forall (fun h => (hs_streak h <= 30)%nat) hs.
Proof.
  intros Hb. unfold habits_GET in Hb. destruct user as [u|]; [|discriminate].
  simpl in Hb. injection Hb as <-. apply Forall_map, Forall_forall. intros h _.
  cbn [hs_streak]. apply streak_take_30.
Qed.

Lemma profile_GET_streak_le_30 user db now p :
  body (profile_GET user db now) = inr p ->
  (currentStreak p <= 30)%nat /\ (longestStreak p <= 30)%nat
  /\ Forall (fun h => (ph_streak h <= 30)%nat) (profile_habits p).
Proof.
  intros Hb. unfold profile_GET in Hb. destruct user as [u|]; [|discriminate].
  destruct (find _ (user_table db)) as [up|]; [|discriminate].
  simpl in Hb. injection Hb as <-. cbn [currentStreak longestStreak profile_habits].
  match goal with |- context [map ph_streak ?l] => set (habitsWithStats := l) end.
  assert (Hall : Forall (fun h => (ph_streak h <= 30)%nat) habitsWithStats).
  { apply Forall_map, Forall_forall. intros h _. cbn [ph_streak]. apply streak_take_30. }
  assert (Hmax : (match map ph_streak habitsWithStats with
                  | [] => 0
                  | x :: xs => Math_max x xs
                  end <= 30)%nat).
  { assert (Hs : Forall (fun y => (y <= 30)%nat) (map ph_streak habitsWithStats))
      by (apply Forall_map; exact Hall).
    destruct (map ph_streak habitsWithStats) as [|x xs]; [lia|].
    inversion Hs; subst. now apply Math_max_le. }
  auto.
Qed.

Lemma friends_GET_streak_le_30 user db now acts :
  body (friends_GET user db now) = inr acts ->
  Forall (fun a => (activity_streak a <= 30)%nat) acts.
Proof.
  intros Hb. unfold friends_GET in Hb. destruct user as [u|]; [|discriminate].
  simpl in Hb. injection Hb as <-. apply Forall_map, Forall_forall. intros a _.
  cbn [activity_streak]. destruct (find _ (habit_table db)); [apply streak_take_30 | lia].
Qed.

(** The walk over the 30 latest rows counts each of them when they lie
    one in each of the periods back from the current one. *)
Lemma streak_one_per_period_run f now run rest :
  (30 < length run)%nat -> one_per_period_run f now run ->
  streak f (take 30 (run ++ rest)) now = 30%nat.
Proof.
  intros Hlen Hrun. rewrite take_app_le by lia.
  rewrite <- (app_nil_r (take 30 run)).
  rewrite streak_streakLoop, streakLoop_run.
  - cbn [streakLoop]. rewrite length_take. lia.
  - intros i c Hi. apply lookup_take_Some in Hi as [Hi _]. now apply Hrun.
Qed.

(** ** Check-in and undo *)

Lemma currentCompletion_window db habit id uid now :
  currentCompletion db habit id uid now =
  findCompletion db id uid (periodStart (frequency habit) now)
    (periodStart (frequency habit) now + periodDays (frequency habit) * msPerDay).
Proof.
  unfold currentCompletion. destruct (frequency habit); simpl.
  - unfold today, addDays. reflexivity.
  - rewrite weekStart_completionWeekStart. unfold addDays. reflexivity.
Qed.

Lemma inWindow_true id uid gte lt c :
  inWindow id uid gte lt c = true <->
  habitId c = id /\ userId c = uid /\ gte <= completedAt c < lt.
Proof.
  unfold inWindow. rewrite !andb_true_iff, !bool_decide_eq_true, Z.leb_le, Z.ltb_lt.
  clear. tauto.
Qed.

Lemma currentCompletion_Some db habit id uid now c :
  currentCompletion db habit id uid now = Some c ->
  c ∈ completion_table db /\ habitId c = id /\ userId c = uid
  /\ inCurrentPeriod (frequency habit) now (completedAt c).
Proof.
  rewrite currentCompletion_window. unfold findCompletion. intros Hfind.
  apply find_some in Hfind as [Hin Hp]. apply (inWindow_true id uid) in Hp.
  split; [now apply list_elem_of_In | exact Hp].
Qed.

Lemma currentCompletion_None db habit id uid now :
  currentCompletion db habit id uid now = None <->
  forall c, c ∈ completion_table db -> habitId c = id -> userId c = uid ->
    ~ inCurrentPeriod (frequency habit) now (completedAt c).
Proof.
  rewrite currentCompletion_window. unfold findCompletion. split.
  - intros Hfind c Hin Hh Hu Hper.
    pose proof (find_none _ _ Hfind c (proj1 (list_elem_of_In _ _) Hin)) as Hp.
    change (inWindow id uid (periodStart (frequency habit) now)
              (periodStart (frequency habit) now
               + periodDays (frequency habit) * msPerDay) c = false) in Hp.
    apply not_true_iff_false in Hp. apply Hp, inWindow_true. auto.
  - intros Hnone.
    destruct (find _ (completion_table db)) as [c|] eqn:Hfind; [|reflexivity].
    apply find_some in Hfind as [Hin Hp]. apply (inWindow_true id uid) in Hp.
    destruct Hp as (Hh & Hu & Hper).
    exfalso. apply (Hnone c); auto. now apply list_elem_of_In.
Qed.

Lemma findHabit_Some db id uid habit :
  findHabit db id uid = Some habit ->
  habit ∈ habit_table db /\ habit_id habit = id /\ habit_userId habit = uid.
Proof.
  unfold findHabit. intros Hfind. apply find_some in Hfind as [Hin Hp].
  apply andb_true_iff in Hp as [H1 H2].
  apply bool_decide_eq_true in H1, H2.
  split; [now apply list_elem_of_In | auto].
Qed.

Lemma existsb_completion_id_fresh (l : list Completion) newId :
  newId ∉ map completion_id l ->
  existsb (fun c => bool_decide (completion_id c = newId)) l = false.
Proof.
  intros Hfresh. apply not_true_iff_false. rewrite existsb_exists.
  intros (c & Hin & Hc). apply bool_decide_eq_true in Hc. apply Hfresh.
  rewrite <- Hc. apply list_elem_of_In, in_map, Hin.
Qed.

Lemma find_snoc {A} (p : A -> bool) l x :
  find p l = None -> find p (l ++ [x]) = if p x then Some x else None.
Proof.
  induction l as [|y l IH]; simpl; [done|].
  destruct (p y); [discriminate | exact IH].
Qed.

Lemma filter_completion_id_fresh (l : list Completion) newId :
  newId ∉ map completion_id l ->
  filter (fun c => completion_id c <> newId) l = l.
Proof.
  induction l as [|c l IH]; intros Hfresh; [done|].
  rewrite filter_cons_True.
  - f_equal. apply IH. intros Hin. apply Hfresh. simpl. now right.
  - intros Heq. apply Hfresh. simpl. rewrite Heq. now left.
Qed.

(** Deleting by primary key takes out the one row that carries it. *)
Lemma filter_completion_id_delete (l : list Completion) c :
  NoDup (map completion_id l) -> c ∈ l ->
  exists l1 l2, l = l1 ++ c :: l2
    /\ filter (fun x => completion_id x <> completion_id c) l = l1 ++ l2.
Proof.
  intros Hnd Hin. apply list_elem_of_split in Hin as (l1 & l2 & ->).
  exists l1, l2. split; [reflexivity|].
  rewrite map_app in Hnd. cbn [map] in Hnd.
  apply NoDup_app in Hnd as (Hnd1 & Hdisj & Hnd2).
  apply NoDup_cons in Hnd2 as (Hnotin & _).
  rewrite filter_app, filter_cons_False by tauto.
  rewrite !filter_completion_id_fresh; [reflexivity | exact Hnotin |].
  intros Hin1. apply (Hdisj _ Hin1). now left.
Qed.

(** C5.  For a habit of the requesting user: when the habit has a
    completion in the current period, a check-in is refused with status
    400, "Already completed for this period" (the spec's Conflict), and the
    store is left as it was; otherwise the check-in adds one completion,
    stamped [now], and answers 201; and a second check-in in the period
    of the first is refused and adds nothing. *)
Theorem checkIn_once_per_period user db id body_notes now newId habit :
  findHabit db id (user_id user) = Some habit ->
  completions_owned db ->
  ((exists c, c ∈ completion_table db /\ habitId c = id
              /\ inCurrentPeriod (frequency habit) now (completedAt c)) ->
   checkin_POST (Some user) db id body_notes now newId =
   (json_error "Already completed for this period" 400, db))
  /\ ((forall c, c ∈ completion_table db -> habitId c = id ->
         ~ inCurrentPeriod (frequency habit) now (completedAt c)) ->
      newId ∉ map completion_id (completion_table db) ->
      exists completion,
        completedAt completion = now /\ habitId completion = id
        /\ userId completion = user_id user /\ completion_id completion = newId
        /\ checkin_POST (Some user) db id body_notes now newId =
           (json_ok completion 201,
            set_completions db (completion_table db ++ [completion]))
        /\ forall body_notes' now' newId',
             periodStart (frequency habit) now' = periodStart (frequency habit) now ->
             let db' := set_completions db (completion_table db ++ [completion]) in
             checkin_POST (Some user) db' id body_notes' now' newId' =
             (json_error "Already completed for this period" 400, db')).
Proof.
  intros Hhabit Howned.
  pose proof (findHabit_Some _ _ _ _ Hhabit) as (Hin & Hid & Huid).
  split.
  - intros (c & Hc & Hh & Hper). unfold checkin_POST. rewrite Hhabit.
    destruct (currentCompletion db habit id (user_id user) now) eqn:Hcur; [reflexivity|].
    exfalso. rewrite currentCompletion_None in Hcur.
    apply (Hcur c); auto. rewrite <- Huid. apply Howned; auto. congruence.
  - intros Hnone Hfresh.
    eexists {| completion_id := newId; habitId := id; userId := user_id user;
               notes := option_map trim body_notes; completedAt := now |}.
    repeat split.
    + unfold checkin_POST. rewrite Hhabit.
      replace (currentCompletion db habit id (user_id user) now) with (@None Completion)
        by (symmetry; apply currentCompletion_None; intros c ? ? _; now apply Hnone).
      now rewrite existsb_completion_id_fresh.
    + intros body_notes' now' newId' Hsame db'. unfold checkin_POST.
      replace (findHabit db' id (user_id user)) with (Some habit) by (symmetry; exact Hhabit).
      destruct (currentCompletion db' habit id (user_id user) now') eqn:Hcur; [reflexivity|].
      exfalso. rewrite currentCompletion_None in Hcur.
      eapply (Hcur _); [apply elem_of_app; right; apply list_elem_of_singleton; reflexivity
                       | reflexivity | reflexivity |].
      cbn [completedAt]. apply periodStart_eq_iff. now symmetry.
Qed.

(** C6.  For a habit of the requesting user and a store in which the
    habit has no completion in the current period, a check-in followed by
    an undo in the same period gives back the store it started from.  In
    general an undo deletes exactly one completion, one of the current
    period, and leaves every other row (those of earlier periods among
    them) in place; with no completion in the current period it answers
    404, "No completion found for this period", and deletes nothing. *)
Theorem checkIn_undo_round_trip user db id body_notes now now' newId habit :
  findHabit db id (user_id user) = Some habit ->
  completion_ids_unique db ->
  ((forall c, c ∈ completion_table db -> habitId c = id ->
      ~ inCurrentPeriod (frequency habit) now (completedAt c)) ->
   newId ∉ map completion_id (completion_table db) ->
   periodStart (frequency habit) now' = periodStart (frequency habit) now ->
   exists completion db1,
     checkin_POST (Some user) db id body_notes now newId = (json_ok completion 201, db1)
     /\ completion_table db1 = completion_table db ++ [completion]
     /\ checkin_DELETE (Some user) db1 id now' =
        (json_ok "Check-in removed successfully" 200, db))
  /\ (forall c, currentCompletion db habit id (user_id user) now = Some c ->
      inCurrentPeriod (frequency habit) now (completedAt c)
      /\ exists l1 l2,
           completion_table db = l1 ++ c :: l2
           /\ checkin_DELETE (Some user) db id now =
              (json_ok "Check-in removed successfully" 200,
               set_completions db (l1 ++ l2)))
  /\ ((forall c, c ∈ completion_table db -> habitId c = id ->
         ~ inCurrentPeriod (frequency habit) now (completedAt c)) ->
      checkin_DELETE (Some user) db id now =
      (json_error "No completion found for this period" 404, db)).
Proof.
  intros Hhabit Hnd. split; [|split].
  - intros Hnone Hfresh Hsame.
    set (completion := {| completion_id := newId; habitId := id; userId := user_id user;
                          notes := option_map trim body_notes; completedAt := now |}).
    exists completion, (set_completions db (completion_table db ++ [completion])).
    assert (Hcur : currentCompletion db habit id (user_id user) now' = None).
    { apply currentCompletion_None. intros c Hin Hh _ Hper. apply (Hnone c Hin Hh).
      apply periodStart_eq_iff. rewrite <- Hsame. now apply periodStart_eq_iff. }
    split; [|split; [reflexivity|]].
    + unfold checkin_POST. rewrite Hhabit.
      replace (currentCompletion db habit id (user_id user) now) with (@None Completion)
        by (symmetry; apply currentCompletion_None; intros c ? ? _; now apply Hnone).
      now rewrite existsb_completion_id_fresh.
    + unfold checkin_DELETE.
      replace (findHabit (set_completions db (completion_table db ++ [completion]))
                 id (user_id user)) with (Some habit) by (symmetry; exact Hhabit).
      rewrite currentCompletion_window in Hcur |- *. unfold findCompletion in *.
      cbn [set_completions completion_table]. rewrite (find_snoc _ _ _ Hcur).
      replace (inWindow id (user_id user) (periodStart (frequency habit) now')
                 (periodStart (frequency habit) now'
                  + periodDays (frequency habit) * msPerDay) completion) with true.
      2:{ symmetry. apply inWindow_true. repeat split.
          all: pose proof (periodStart_bounds (frequency habit) now) as Hb;
            rewrite Hsame; cbn [completedAt completion]; lia. }
      cbn [completion_id completion].
      rewrite filter_app, filter_cons_False by (intros Hne; now apply Hne).
      rewrite filter_nil, app_nil_r, filter_completion_id_fresh by exact Hfresh.
      now destruct db.
  - intros c Hcur.
    pose proof (currentCompletion_Some _ _ _ _ _ _ Hcur) as (Hin & _ & _ & Hper).
    split; [exact Hper|].
    destruct (filter_completion_id_delete _ c Hnd Hin) as (l1 & l2 & Hsplit & Hfilter).
    exists l1, l2. split; [exact Hsplit|].
    unfold checkin_DELETE. now rewrite Hhabit, Hcur, Hfilter.
  - intros Hnone. unfold checkin_DELETE. rewrite Hhabit.
    replace (currentCompletion db habit id (user_id user) now) with (@None Completion)
      by (symmetry; apply currentCompletion_None; intros c ? ? _; now apply Hnone).
    reflexivity.
Qed.

(** The hypotheses of the two theorems on the store are invariants of
    the check-in handlers. *)
Lemma checkin_POST_preserves_ids_unique user db id body_notes now newId :
  completion_ids_unique db ->
  completion_ids_unique (snd (checkin_POST user db id body_notes now newId)).
Proof.
  intros Hnd. unfold checkin_POST.
  destruct user as [user|]; [|exact Hnd].
  destruct (findHabit db id (user_id user)) as [habit|]; [|exact Hnd].
  destruct (currentCompletion db habit id (user_id user) now); [exact Hnd|].
  destruct (existsb _ (completion_table db)) eqn:Hfresh; [exact Hnd|].
  unfold completion_ids_unique in *. cbn [snd set_completions completion_table].
  rewrite map_app. cbn [map completion_id]. apply NoDup_app.
  split; [exact Hnd|]. split; [|apply NoDup_singleton].
  intros x Hin Hnew. apply list_elem_of_singleton in Hnew. subst x.
  apply (list_elem_of_fmap completion_id) in Hin as (c & Heq & Hc).
  apply not_true_iff_false in Hfresh. apply Hfresh, existsb_exists.
  exists c. split; [now apply list_elem_of_In | now apply bool_decide_eq_true].
Qed.

Lemma checkin_POST_preserves_owned user db id body_notes now newId :
  NoDup (map habit_id (habit_table db)) ->
  completions_owned db ->
  completions_owned (snd (checkin_POST user db id body_notes now newId)).
Proof.
  intros Hkey Howned. unfold checkin_POST.
  destruct user as [user|]; [|exact Howned].
  destruct (findHabit db id (user_id user)) as [habit|] eqn:Hhabit; [|exact Howned].
  destruct (currentCompletion db habit id (user_id user) now); [exact Howned|].
  destruct (existsb _ (completion_table db)); [exact Howned|].
  apply findHabit_Some in Hhabit as (Hin & Hid & Huid).
  intros c h Hc Hh Heq. cbn [snd set_completions completion_table habit_table] in Hc, Hh.
  apply elem_of_app in Hc as [Hc|Hc]; [now apply Howned|].
  apply list_elem_of_singleton in Hc. subst c. cbn [habitId userId] in *.
  assert (h = habit) as ->; [|now symmetry].
  apply list_elem_of_lookup in Hh as [i Hi]. apply list_elem_of_lookup in Hin as [j Hj].
  assert (i = j) as ->.
  { apply (NoDup_lookup _ i j id Hkey); rewrite list_lookup_fmap.
    - rewrite Hi. cbn. now rewrite <- Heq.
    - rewrite Hj. cbn. now rewrite Hid. }
  congruence.
Qed.

Lemma checkin_DELETE_preserves_invariants user db id now :
  completion_ids_unique db -> completions_owned db ->
  completion_ids_unique (snd (checkin_DELETE user db id now))
  /\ completions_owned (snd (checkin_DELETE user db id now)).
Proof.
  intros Hnd Howned. unfold checkin_DELETE.
  destruct user as [user|]; [|auto].
  destruct (findHabit db id (user_id user)) as [habit|]; [|auto].
  destruct (currentCompletion db habit id (user_id user) now) as [completion|]; [|auto].
  cbn [snd]. split.
  - unfold completion_ids_unique in *. cbn [set_completions completion_table].
    apply (sublist_NoDup _ (map completion_id (completion_table db))); [exact Hnd|].
    apply (fmap_sublist completion_id), sublist_filter.
  - intros c h Hc Hh. cbn [set_completions completion_table habit_table] in Hc, Hh.
    apply list_elem_of_filter in Hc as [_ Hc]. now apply Howned.
Qed.

(** ** The activity feed *)

Lemma recentActivity_length db viewer : (length (recentActivity db viewer) <= 50)%nat.
Proof. unfold recentActivity. rewrite length_take. lia. Qed.

Lemma recentActivity_followed db viewer c :
  c ∈ recentActivity db viewer ->
  c ∈ completion_table db
  /\ exists f, f ∈ friendship_table db /\ followerId f = viewer
               /\ followingId f = userId c.
Proof.
  unfold recentActivity. intros Hin. apply subseteq_take in Hin.
  rewrite orderBy_Permutation in Hin. apply list_elem_of_filter in Hin as [Hf Hin].
  split; [exact Hin|]. unfold followedUserIds in Hf.
  apply list_elem_of_fmap in Hf as (f & Heq & Hf).
  apply list_elem_of_filter in Hf as [Hfol Hf]. exists f. auto.
Qed.

Lemma recentActivity_sorted db viewer :
  StronglySorted completedAt_desc (recentActivity db viewer).
Proof.
  unfold recentActivity.
  set (l := orderBy_completedAt_desc _).
  assert (Hs : StronglySorted completedAt_desc l)
    by (apply Sorted_StronglySorted; [apply _ | apply orderBy_sorted]).
  rewrite <- (take_drop 50 l) in Hs. now apply StronglySorted_app_1_l in Hs.
Qed.

Lemma recentActivity_no_follow db viewer :
  followedUserIds db viewer = [] -> recentActivity db viewer = [].
Proof.
  intros Hnone. unfold recentActivity. rewrite Hnone.
  replace (filter (fun c => userId c ∈ []) (completion_table db)) with (@nil Completion);
    [reflexivity|].
  induction (completion_table db) as [|c l IH]; [reflexivity|].
  rewrite filter_cons_False; [exact IH|]. apply not_elem_of_nil.
Qed.

(** C7.  The feed of a viewer who follows nobody is empty, with status
    200; in general the feed has at most 50 events, each a completion of
    the store made by a user the viewer follows, in descending order of
    completion time. *)
Theorem activity_feed_bounded_followed_sorted user db now :
  (followedUserIds db (user_id user) = [] ->
   friends_GET (Some user) db now = json_ok [] 200)
  /\ exists acts,
       friends_GET (Some user) db now = json_ok acts 200
       /\ (length acts <= 50)%nat
       /\ Forall (fun a =>
                    activity a ∈ completion_table db
                    /\ exists f, f ∈ friendship_table db
                                 /\ followerId f = user_id user
                                 /\ followingId f = userId (activity a)) acts
       /\ StronglySorted activity_desc acts.
Proof.
  split.
  - intros Hnone. unfold friends_GET.
    rewrite recentActivity_no_follow by exact Hnone. reflexivity.
  - eexists. split; [reflexivity|]. split; [|split].
    + rewrite length_map. apply recentActivity_length.
    + apply Forall_map, Forall_forall. intros c Hin. cbn [activity].
      apply recentActivity_followed. exact Hin.
    + apply (StronglySorted_fmap _ completedAt_desc); [|apply recentActivity_sorted].
      intros x y Hxy. exact Hxy.
Qed.

(** ** Login *)

Lemma strlen_nonempty s : s <> "" -> (strlen s <? 1) = false.
Proof.
  intros Hs. apply Z.ltb_ge. unfold strlen. destruct s; [done|]. simpl. lia.
Qed.

(** C9.  Two login requests with a well-formed email and a password that
    is not empty, one for an email no user has and one with a wrong
    password for the email of a user, get one and the same response:
    status 401, "Invalid email or password", no cookie. *)
Theorem login_failures_indistinguishable db1 db2 email1 password1 email2 password2 user :
  isEmail email1 = true -> password1 <> "" ->
  isEmail email2 = true -> password2 <> "" ->
  findUserByEmail db1 (toLowerCase email1) = None ->
  findUserByEmail db2 (toLowerCase email2) = Some user ->
  verifyPassword password2 (password user) = false ->
  login_POST db1 email1 password1 = login_POST db2 email2 password2
  /\ login_POST db2 email2 password2 = json_error "Invalid email or password" 401.
Proof.
  intros He1 Hp1 He2 Hp2 Hunknown Hknown Hwrong.
  unfold login_POST, loginSchema.
  rewrite He1, He2, (strlen_nonempty _ Hp1), (strlen_nonempty _ Hp2).
  cbn [negb]. now rewrite Hunknown, Hknown, Hwrong.
Qed.

(** ** Usernames *)

(** Signup looks the username up without regard to case, and refuses a
    taken one. *)
Lemma signup_rejects_taken_username db body_email body_password body_username now newId
    email' password' username' x :
  signupSchema body_email body_password body_username = inr (email', password', username') ->
  x ∈ user_table db -> toLowerCase (username x) = toLowerCase username' ->
  exists message,
    signup_POST db body_email body_password body_username now newId =
    (json_error message 400, db).
Proof.
  intros Hparse Hin Hsame. unfold signup_POST. rewrite Hparse.
  destruct (find _ (user_table db)) as [existingUser|] eqn:Hfind; [eauto|].
  exfalso. pose proof (find_none _ _ Hfind x (proj1 (list_elem_of_In _ _) Hin)) as Hx.
  simpl in Hx. apply orb_false_iff in Hx as [_ Hx]. unfold equals_insensitive in Hx.
  now apply bool_decide_eq_false in Hx.
Qed.

Lemma signup_preserves_usernames_unique db body_email body_password body_username now newId :
  usernames_unique_ci db ->
  usernames_unique_ci (snd (signup_POST db body_email body_password body_username now newId)).
Proof.
  intros Hinv. unfold signup_POST.
  destruct (signupSchema _ _ _) as [message|[[email' password'] username']]; [exact Hinv|].
  destruct (find _ (user_table db)) as [existingUser|] eqn:Hfind; [exact Hinv|].
  destruct (existsb _ (user_table db)); [exact Hinv|].
  unfold usernames_unique_ci in *. cbn [snd set_users user_table].
  rewrite map_app. cbn [map username]. apply NoDup_app. split; [exact Hinv|].
  split; [|apply NoDup_singleton].
  intros lower Hin Hnew. apply list_elem_of_singleton in Hnew. subst lower.
  apply (list_elem_of_fmap (fun u => toLowerCase (username u))) in Hin
    as (x & Heq & Hx).
  pose proof (find_none _ _ Hfind x (proj1 (list_elem_of_In _ _) Hx)) as Hx'.
  simpl in Hx'. apply orb_false_iff in Hx' as [_ Hx']. unfold equals_insensitive in Hx'.
  apply bool_decide_eq_false in Hx'. congruence.
Qed.

(** The profile update looks the new username up as it is spelled: it
    refuses one that another user has letter for letter. *)
Lemma profile_PUT_rejects_exact_username user db u new_bio new_avatar x :
  updateProfileSchema (Some u) new_bio new_avatar = None ->
  u <> username user -> x ∈ user_table db -> username x = u ->
  profile_PUT (Some user) db (Some u) new_bio new_avatar =
  (json_error "Username already taken" 400, db).
Proof.
  intros Hparse Hne Hin Hsame. unfold profile_PUT. rewrite Hparse.
  assert (Hnonempty : u <> "").
  { intros ->. unfold updateProfileSchema in Hparse. discriminate. }
  rewrite (bool_decide_eq_false_2 _ Hnonempty), (bool_decide_eq_false_2 _ Hne).
  cbn [negb andb].
  destruct (find _ (user_table db)) as [existingUser|] eqn:Hfind; [reflexivity|].
  exfalso. pose proof (find_none _ _ Hfind x (proj1 (list_elem_of_In _ _) Hin)) as Hx.
  simpl in Hx. now apply bool_decide_eq_false in Hx.
Qed.

(** ** The 30-row window and the handlers *)

Lemma filter_iff_in {A} (P1 P2 : A -> Prop)
    `{!forall x, Decision (P1 x), !forall x, Decision (P2 x)} (l : list A) :
  (forall x, x ∈ l -> P1 x <-> P2 x) -> filter P1 l = filter P2 l.
Proof.
  induction l as [|a l IH]; intros Hiff; [reflexivity|].
  assert (Ha : P1 a <-> P2 a) by (apply Hiff; left).
  assert (Hl : filter P1 l = filter P2 l) by (apply IH; intros x Hx; apply Hiff; now right).
  destruct (decide (P1 a)) as [H1|H1].
  - rewrite !filter_cons_True by (clear - H1 Ha; tauto). now rewrite Hl.
  - rewrite !filter_cons_False by (clear - H1 Ha; tauto). exact Hl.
Qed.

(** C10.  The streak the habits listing, the profile and the activity
    feed report is at most 30, each being computed from the 30 latest
    completions fetched for the habit.  A habit whose completions, latest
    first, begin with more than 30 rows that lie one in each of the
    periods back from the current one is reported with a streak of 30: by
    the listing and the profile of its owner (the profile's current and
    longest streak are 30 too), and, in a store whose completions record
    the owner of their habit, on each of its events in a feed. *)
Theorem reported_streak_capped_at_30 user db now :
  (forall hs, body (habits_GET user db now) = inr hs ->
     Forall (fun h => (hs_streak h <= 30)%nat) hs)
  /\ (forall p, body (profile_GET user db now) = inr p ->
        (currentStreak p <= 30)%nat /\ (longestStreak p <= 30)%nat
        /\ Forall (fun h => (ph_streak h <= 30)%nat) (profile_habits p))
  /\ (forall acts, body (friends_GET user db now) = inr acts ->
        Forall (fun a => (activity_streak a <= 30)%nat) acts)
  /\ (forall u h run rest,
        user = Some u -> h ∈ habit_table db ->
        orderBy_completedAt_desc
          (filter (fun c => habitId c = habit_id h) (completion_table db)) = run ++ rest ->
        (30 < length run)%nat ->
        one_per_period_run (frequency h) now run ->
        (habit_userId h = user_id u ->
         exists hs s,
           body (habits_GET user db now) = inr hs
           /\ s ∈ hs /\ hs_habit s = h /\ hs_streak s = 30%nat)
        /\ (habit_userId h = user_id u ->
            (exists row, row ∈ user_table db /\ user_id row = user_id u) ->
            exists p s,
              body (profile_GET user db now) = inr p
              /\ s ∈ profile_habits p /\ ph_habit s = h /\ ph_streak s = 30%nat
              /\ currentStreak p = 30%nat /\ longestStreak p = 30%nat)
        /\ (completions_owned db ->
            forall c,
              c ∈ recentActivity db (user_id u) ->
              find (fun h' => bool_decide (habit_id h' = habitId c)) (habit_table db)
                = Some h ->
              exists acts a,
                body (friends_GET user db now) = inr acts
                /\ a ∈ acts /\ activity a = c /\ activity_habit a = Some h
                /\ activity_streak a = 30%nat)).
Proof.
  split; [apply habits_GET_streak_le_30|].
  split; [apply profile_GET_streak_le_30|].
  split; [apply friends_GET_streak_le_30|].
  intros u h run rest -> Hh Hsort Hlen Hrun.
  assert (Hstreak : streak (frequency h) (lastCompletions db (habit_id h)) now = 30%nat).
  { unfold lastCompletions. rewrite Hsort. now apply streak_one_per_period_run. }
  split; [|split].
  - intros Hown. unfold habits_GET. eexists _, _. split; [reflexivity|]. split.
    + apply list_elem_of_fmap. exists h. split; [reflexivity|].
      rewrite merge_sort_Permutation. now apply list_elem_of_filter.
    + split; [reflexivity | exact Hstreak].
  - intros Hown (row & Hrow & Hid).
    destruct (body (profile_GET (Some u) db now)) as [err|p] eqn:Hbody.
    { exfalso. unfold profile_GET in Hbody.
      destruct (find _ (user_table db)) as [up|] eqn:Hfind; [discriminate|].
      pose proof (find_none _ _ Hfind row (proj1 (list_elem_of_In _ _) Hrow)) as Hp.
      simpl in Hp. now apply bool_decide_eq_false in Hp. }
    pose proof (profile_GET_streak_le_30 _ _ _ _ Hbody) as (Hle & _ & _).
    unfold profile_GET in Hbody.
    destruct (find _ (user_table db)) as [up|] eqn:Hfind; [|discriminate].
    apply find_some in Hfind as [_ Hup]. apply bool_decide_eq_true in Hup.
    simpl in Hbody. injection Hbody as <-.
    cbn [currentStreak longestStreak profile_habits] in *.
    match goal with |- context [map ph_streak ?l] => set (habitsWithStats := l) in * end.
    set (s := {| ph_habit := h;
                 ph_streak := streak (frequency h) (lastCompletions db (habit_id h)) now;
                 ph_progress := progress (frequency h) (lastCompletions db (habit_id h)) now;
                 ph_totalCompletions :=
                   length (filter (fun c => habitId c = habit_id h) (completion_table db)) |}).
    assert (Hs : s ∈ habitsWithStats).
    { apply list_elem_of_fmap. exists h. split; [reflexivity|].
      apply list_elem_of_filter. split; [congruence | exact Hh]. }
    assert (Hmax : (match map ph_streak habitsWithStats with
                    | [] => 0
                    | x :: xs => Math_max x xs
                    end = 30)%nat).
    { assert (Hin : ph_streak s ∈ map ph_streak habitsWithStats)
        by (now apply (list_elem_of_fmap_2 ph_streak)).
      cbn [s ph_streak] in Hin. rewrite Hstreak in Hin.
      destruct (map ph_streak habitsWithStats) as [|x xs]; [inversion Hin|].
      apply Math_max_ge in Hin. lia. }
    eexists _, s. split; [reflexivity|].
    cbn [profile_habits currentStreak longestStreak].
    split; [exact Hs|]. split; [reflexivity|]. split; [exact Hstreak|].
    split; exact Hmax.
  - intros Howned c Hc Hfind. unfold friends_GET. eexists _, _.
    split; [reflexivity|]. split.
    + apply list_elem_of_fmap. exists c. split; [reflexivity | exact Hc].
    + cbn [activity activity_habit activity_streak]. rewrite Hfind.
      split; [reflexivity|]. split; [reflexivity|].
      pose proof Hfind as Hfind'. apply find_some in Hfind' as [_ Hid].
      apply bool_decide_eq_true in Hid.
      apply recentActivity_followed in Hc as [Hc _].
      etransitivity; [|exact Hstreak].
      unfold lastCompletions. do 3 f_equal. apply filter_iff_in.
      intros c' Hc'. split; [now intros [? _]|]. intros Hsame. split; [exact Hsame|].
      rewrite (Howned c' h Hc' Hh Hsame). symmetry. now apply Howned.
Qed.

(** * Further properties *)

(** ** More on the streak walk *)

Lemma streakLoop_acc norm step l : forall cursor acc,
  streakLoop norm step l cursor (S acc) = S (streakLoop norm step l cursor acc).
Proof.
  induction l as [|c l IH]; intros cursor acc; cbn [streakLoop]; [reflexivity|].
  destruct (norm (completedAt c) =? cursor); [apply IH|].
  destruct (norm (completedAt c) <? cursor); [reflexivity | apply IH].
Qed.

Lemma streakLoop_ge norm step l : forall cursor acc,
  (acc <= streakLoop norm step l cursor acc)%nat.
Proof.
  induction l as [|c l IH]; intros cursor acc; cbn [streakLoop]; [lia|].
  destruct (norm (completedAt c) =? cursor).
  - specialize (IH (addDays cursor (- step)) (S acc)). lia.
  - destruct (norm (completedAt c) <? cursor); [lia | apply IH].
Qed.

Lemma streakLoop_none norm step l : forall cursor acc,
  (forall c, c ∈ l -> norm (completedAt c) <> cursor) ->
  streakLoop norm step l cursor acc = acc.
Proof.
  induction l as [|c l IH]; intros cursor acc Hnone; cbn [streakLoop]; [reflexivity|].
  replace (norm (completedAt c) =? cursor) with false
    by (symmetry; apply Z.eqb_neq, Hnone; left).
  destruct (norm (completedAt c) <? cursor); [reflexivity|].
  apply IH. intros c' Hc'. apply Hnone. now right.
Qed.

Lemma streakLoop_reaches norm step l1 : forall c l2 cursor acc,
  (forall x, x ∈ l1 -> cursor <= norm (completedAt x)) ->
  norm (completedAt c) = cursor ->
  (S acc <= streakLoop norm step (l1 ++ c :: l2) cursor acc)%nat.
Proof.
  induction l1 as [|x l1 IH]; intros c l2 cursor acc Hge Hc.
  - cbn [app streakLoop]. rewrite Hc, Z.eqb_refl. apply streakLoop_ge.
  - change ((x :: l1) ++ c :: l2) with (x :: (l1 ++ c :: l2)). cbn [streakLoop].
    destruct (norm (completedAt x) =? cursor).
    + pose proof (streakLoop_ge norm step (l1 ++ c :: l2) (addDays cursor (- step)) (S acc)).
      lia.
    + replace (norm (completedAt x) <? cursor) with false.
      * apply IH; [|exact Hc]. intros y Hy. apply Hge. now right.
      * symmetry. apply Z.ltb_ge, Hge. left.
Qed.

Lemma setHours0_mono t1 t2 : t1 <= t2 -> setHours0 t1 <= setHours0 t2.
Proof. intros H. calendar. Qed.

Lemma completionWeekStart_mono t1 t2 :
  t1 <= t2 -> completionWeekStart t1 <= completionWeekStart t2.
Proof.
  intros H. unfold completionWeekStart. rewrite !setHours0_addDays.
  unfold addDays, getDay, setHours0, localDay, msPerDay.
  Z.to_euclidean_division_equations; lia.
Qed.

Lemma periodStart_mono f t1 t2 : t1 <= t2 -> periodStart f t1 <= periodStart f t2.
Proof. destruct f; [apply setHours0_mono | apply completionWeekStart_mono]. Qed.

Lemma periodStart_addDays f t :
  periodStart f (addDays t (- periodDays f)) = addDays (periodStart f t) (- periodDays f).
Proof.
  destruct f; cbn [periodStart periodDays].
  - apply setHours0_addDays.
  - unfold completionWeekStart. rewrite !setHours0_addDays.
    unfold addDays, getDay, setHours0, localDay, msPerDay.
    Z.to_euclidean_division_equations; lia.
Qed.

Lemma streak_zero_without_current f l now :
  (forall c, c ∈ l -> ~ inCurrentPeriod f now (completedAt c)) ->
  streak f l now = 0%nat.
Proof.
  intros Hnone. rewrite streak_streakLoop. apply streakLoop_none.
  intros c Hin Hc. apply (Hnone c Hin). now apply periodStart_eq_iff.
Qed.

Lemma streak_positive_with_current f l now c :
  StronglySorted completedAt_desc l ->
  c ∈ l -> inCurrentPeriod f now (completedAt c) ->
  (0 < streak f l now)%nat.
Proof.
  intros Hsorted Hin Hc. rewrite streak_streakLoop. apply periodStart_eq_iff in Hc.
  apply list_elem_of_split in Hin as (l1 & l2 & ->).
  apply (streakLoop_reaches _ _ l1 c l2 _ 0%nat); [|exact Hc].
  intros x Hx. rewrite <- Hc. apply periodStart_mono.
  apply StronglySorted_app in Hsorted as (Hcross & _ & _).
  apply (Hcross x c Hx). left.
Qed.

(** X1.  On completions in descending order of time the streak is
    positive exactly when one of them lies in the current period: a habit
    not yet completed today (this week) shows a streak of 0, whatever run
    ended yesterday (last week). *)
Theorem streak_positive_iff_current_period f l now :
  StronglySorted completedAt_desc l ->
  (0 < streak f l now)%nat <->
  exists c, c ∈ l /\ inCurrentPeriod f now (completedAt c).
Proof.
  intros Hsorted. split.
  - intros Hpos.
    destruct (decide (Exists (fun c => periodStart f (completedAt c) = periodStart f now) l))
      as [Hex|Hnone].
    + apply Exists_exists in Hex as (c & Hin & Hc). exists c.
      split; [exact Hin | now apply periodStart_eq_iff].
    + rewrite streak_zero_without_current in Hpos; [lia|].
      intros c Hin Hc. apply Hnone, Exists_exists. exists c.
      split; [exact Hin | now apply periodStart_eq_iff].
  - intros (c & Hin & Hc). now apply (streak_positive_with_current f l now c).
Qed.

(** X2.  A completion in the current period at the head of the list adds
    one to the streak that the rest of the list has one period earlier:
    checking in today extends the run that ended yesterday. *)
Theorem streak_head_in_current_period f c l now :
  inCurrentPeriod f now (completedAt c) ->
  streak f (c :: l) now = S (streak f l (addDays now (- periodDays f))).
Proof.
  intros Hc. apply periodStart_eq_iff in Hc.
  rewrite !streak_streakLoop. cbn [streakLoop].
  rewrite Hc, Z.eqb_refl, streakLoop_acc, periodStart_addDays. reflexivity.
Qed.

(** X3.  A completion that follows another of the same period in the
    list never changes the streak: two check-ins on one day count once. *)
Theorem streak_ignores_repeat_in_period f l1 c c' l2 now :
  periodStart f (completedAt c') = periodStart f (completedAt c) ->
  streak f (l1 ++ c :: c' :: l2) now = streak f (l1 ++ c :: l2) now.
Proof.
  intros Hsame. rewrite !streak_streakLoop.
  generalize (periodStart f now) as cursor. generalize 0%nat as acc.
  induction l1 as [|x l1 IH]; intros acc cursor.
  - cbn [app streakLoop]. rewrite Hsame.
    destruct (periodStart f (completedAt c) =? cursor) eqn:Heq.
    + apply Z.eqb_eq in Heq.
      replace (periodStart f (completedAt c) =? addDays cursor (- periodDays f)) with false.
      * replace (periodStart f (completedAt c) <? addDays cursor (- periodDays f)) with false;
          [reflexivity|].
        symmetry. apply Z.ltb_ge. rewrite Heq. unfold addDays, msPerDay.
        destruct f; cbn [periodDays]; lia.
      * symmetry. apply Z.eqb_neq. rewrite Heq. unfold addDays, msPerDay.
        destruct f; cbn [periodDays]; lia.
    + destruct (periodStart f (completedAt c) <? cursor); reflexivity.
  - change ((x :: l1) ++ c :: c' :: l2) with (x :: (l1 ++ c :: c' :: l2)).
    change ((x :: l1) ++ c :: l2) with (x :: (l1 ++ c :: l2)). cbn [streakLoop].
    destruct (periodStart f (completedAt x) =? cursor); [apply IH|].
    destruct (periodStart f (completedAt x) <? cursor); [reflexivity | apply IH].
Qed.

(** X4.  For a daily habit the completed-today flag is true exactly when
    one of the completions lies in the local day of [now]; on completions
    in descending order it then agrees with a positive streak. *)
Theorem completedToday_daily_current_day l now :
  (completedToday daily l now = true <->
   exists c, c ∈ l /\ today now <= completedAt c < addDays (today now) 1)
  /\ (StronglySorted completedAt_desc l ->
      (completedToday daily l now = true <-> (0 < streak daily l now)%nat)).
Proof.
  assert (Hiff : completedToday daily l now = true <->
                 exists c, c ∈ l /\ inCurrentPeriod daily now (completedAt c)).
  { rewrite completedToday_daily_iff. split; intros (c & Hin & Hc); exists c; split; auto.
    - now apply periodStart_eq_iff.
    - now apply periodStart_eq_iff. }
  split.
  - rewrite Hiff. unfold inCurrentPeriod, today, addDays. cbn [periodStart periodDays].
    split; intros (c & Hin & Hc); exists c; (split; [exact Hin | lia]).
  - intros Hsorted. rewrite Hiff. split.
    + intros (c & Hin & Hc). now apply (streak_positive_with_current daily l now c).
    + intros Hpos.
      destruct (decide (Exists (fun c => setHours0 (completedAt c) = setHours0 now) l))
        as [Hex|Hnone].
      * apply Exists_exists in Hex as (c & Hin & Hc). exists c.
        split; [exact Hin | now apply (periodStart_eq_iff daily)].
      * rewrite streak_zero_without_current in Hpos; [lia|].
        intros c Hin Hc. apply Hnone, Exists_exists. exists c.
        split; [exact Hin | now apply (periodStart_eq_iff daily)].
Qed.

(** ** More on the progress *)

(** X5.  The progress is 0 exactly when no completion falls in the last
    30 days, and 100 exactly when the completions of the last 30 days
    reach the expected number (30 for a daily habit, 5 for a weekly
    one). *)
Theorem progress_zero_and_full f l now :
  (progress f l now = 0 <-> recentCompletions l now = [])
  /\ (progress f l now = 100 <->
      expectedCompletions f <= Z.of_nat (length (recentCompletions l now))).
Proof.
  rewrite progress_round_div, expectedCompletions_value.
  assert (Hnil : recentCompletions l now = [] <->
                 Z.of_nat (length (recentCompletions l now)) = 0).
  { destruct (recentCompletions l now); cbn [length]; split; intros; try lia; congruence. }
  rewrite Hnil. generalize (Z.of_nat (length (recentCompletions l now))) (Zle_0_nat (length (recentCompletions l now))).
  intros n Hn. unfold round_div.
  destruct f; split; split; intros H; Z.to_euclidean_division_equations; lia.
Qed.

Lemma recent_take_sorted thr l : forall n,
  StronglySorted completedAt_desc l ->
  length (filter (fun c => thr <= completedAt c) (take n l)) =
  Nat.min n (length (filter (fun c => thr <= completedAt c) l)).
Proof.
  induction l as [|x l IH]; intros n Hsorted.
  - rewrite take_nil, filter_nil. cbn [length]. lia.
  - apply StronglySorted_cons in Hsorted as [Hall Hsorted].
    destruct n as [|n]; [cbn [take]; rewrite filter_nil; reflexivity|].
    cbn [take]. destruct (decide (thr <= completedAt x)) as [Hx|Hx].
    + rewrite !filter_cons_True by exact Hx. cbn [length]. rewrite IH by exact Hsorted. lia.
    + rewrite !filter_cons_False by exact Hx.
      assert (Hnone : forall l', l' ⊆ l -> filter (fun c => thr <= completedAt c) l' = []).
      { intros l' Hsub. induction l' as [|y l' IHl']; [reflexivity|].
        rewrite filter_cons_False.
        - apply IHl'. intros z Hz. apply Hsub. now right.
        - assert (Hy : y ∈ l) by (apply Hsub; left).
          rewrite Forall_forall in Hall. specialize (Hall y Hy).
          unfold completedAt_desc in Hall. lia. }
      rewrite (Hnone (take n l)) by apply subseteq_take.
      rewrite (Hnone l) by reflexivity. cbn [length]. lia.
Qed.

(** X6.  Fetching only the 30 latest completions never changes the
    progress: computed from the fetched rows it equals the progress
    computed from all the rows of the habit. *)
Theorem progress_window_independent f rows now :
  progress f (take 30 (orderBy_completedAt_desc rows)) now = progress f rows now.
Proof.
  rewrite !progress_round_div. unfold recentCompletions.
  rewrite recent_take_sorted
    by (apply Sorted_StronglySorted; [apply _ | apply orderBy_sorted]).
  rewrite (orderBy_Permutation rows).
  generalize (length (filter (fun c => addDays now (-30) <= completedAt c) rows)).
  intros n. rewrite expectedCompletions_value.
  destruct (Nat.le_gt_cases n 30) as [Hle|Hgt].
  - now rewrite Nat.min_r by exact Hle.
  - rewrite Nat.min_l by lia. unfold round_div.
    destruct f; Z.to_euclidean_division_equations; lia.
Qed.

(** ** More on the listings and the feed *)

Local Instance habit_createdAt_desc_total : Total habit_createdAt_desc.
Proof. unfold habit_createdAt_desc. intros a b. lia. Qed.

(** X7.  The habits listing of a user holds that user's habits, each
    once and no habit of anybody else, the latest created first; the
    total it reports for a habit counts all of the habit's completions,
    not only the 30 fetched. *)
Theorem habits_GET_lists_own_habits user db now :
  exists hs,
    habits_GET (Some user) db now = json_ok hs 200
    /\ map hs_habit hs ≡ₚ filter (fun h => habit_userId h = user_id user) (habit_table db)
    /\ Sorted habit_createdAt_desc (map hs_habit hs)
    /\ Forall (fun s =>
                 habit_userId (hs_habit s) = user_id user
                 /\ hs_totalCompletions s =
                    length (filter (fun c => habitId c = habit_id (hs_habit s))
                                   (completion_table db)))
              hs.
Proof.
  eexists. split; [reflexivity|].
  rewrite map_map. cbn [hs_habit]. rewrite map_id.
  split; [apply merge_sort_Permutation|]. split; [apply Sorted_merge_sort; apply _|].
  apply Forall_map, Forall_forall. intros h Hin. cbn [hs_habit hs_totalCompletions].
  split; [|reflexivity]. rewrite merge_sort_Permutation in Hin.
  now apply list_elem_of_filter in Hin as [Hu _].
Qed.

(** X8.  In a store whose completions record the owner of their habit,
    the streak the feed attaches to an event is the streak the owner's own
    listing computes for that habit. *)
Theorem feed_streak_is_listing_streak user db now acts a h :
  completions_owned db ->
  body (friends_GET (Some user) db now) = inr acts ->
  a ∈ acts -> activity_habit a = Some h ->
  activity_streak a = streak (frequency h) (lastCompletions db (habit_id h)) now.
Proof.
  intros Howned Hbody Hin Hhabit. unfold friends_GET in Hbody. simpl in Hbody.
  injection Hbody as <-. apply list_elem_of_fmap in Hin as (c & -> & Hc).
  cbn [activity_habit activity_streak] in *. rewrite Hhabit.
  apply find_some in Hhabit as [Hh Hid]. apply bool_decide_eq_true in Hid.
  apply list_elem_of_In in Hh.
  apply recentActivity_followed in Hc as [Hc _].
  unfold lastCompletions. do 3 f_equal. apply filter_iff_in.
  intros c' Hc'. split; [now intros [? _]|]. intros Hsame. split; [exact Hsame|].
  rewrite (Howned c' h Hc' Hh Hsame). symmetry. now apply Howned.
Qed.

(** X9.  While the users a viewer follows have at most 50 completions
    between them, the feed shows every one of those completions. *)
Theorem feed_complete_up_to_50 user db now c :
  (length (filter (fun c => userId c ∈ followedUserIds db (user_id user))
                  (completion_table db)) <= 50)%nat ->
  c ∈ completion_table db ->
  userId c ∈ followedUserIds db (user_id user) ->
  exists acts a,
    friends_GET (Some user) db now = json_ok acts 200 /\ a ∈ acts /\ activity a = c.
Proof.
  intros Hlen Hc Hfollowed.
  assert (Hin : c ∈ recentActivity db (user_id user)).
  { unfold recentActivity. rewrite take_ge.
    - rewrite orderBy_Permutation. apply list_elem_of_filter. auto.
    - now rewrite orderBy_Permutation. }
  unfold friends_GET. eexists. eexists. split; [reflexivity|]. split.
  - apply list_elem_of_fmap. exists c. split; [reflexivity | exact Hin].
  - reflexivity.
Qed.

(** X10.  The current streak of a profile is the greatest streak among
    the user's habits, 0 without habits, and the longest streak reported
    is the same number. *)
Theorem profile_currentStreak_is_max user db now p :
  body (profile_GET user db now) = inr p ->
  Forall (fun h => (ph_streak h <= currentStreak p)%nat) (profile_habits p)
  /\ (profile_habits p = [] -> currentStreak p = 0%nat)
  /\ (profile_habits p <> [] ->
      exists h, h ∈ profile_habits p /\ ph_streak h = currentStreak p)
  /\ longestStreak p = currentStreak p.
Proof.
  intros Hb. unfold profile_GET in Hb. destruct user as [u|]; [|discriminate].
  destruct (find _ (user_table db)) as [up|]; [|discriminate].
  simpl in Hb. injection Hb as <-. cbn [currentStreak longestStreak profile_habits].
  match goal with |- context [map ph_streak ?l] => generalize l end.
  intros hs. split; [|split; [|split]]; [| | |reflexivity].
  - destruct hs as [|h0 hs]; [constructor|]. cbn [map].
    assert (Hmax : forall xs x, (x <= Math_max x xs)%nat
                                /\ Forall (fun y => (y <= Math_max x xs)%nat) xs).
    { unfold Math_max. induction xs as [|y xs IH]; intros x; cbn [foldl]; [split; [lia|constructor]|].
      destruct (IH (Nat.max x y)) as [H1 H2]. split; [lia|].
      constructor; [lia | exact H2]. }
    destruct (Hmax (map ph_streak hs) (ph_streak h0)) as [H1 H2].
    constructor; [exact H1|]. now apply Forall_map in H2.
  - now intros ->.
  - intros Hne. destruct hs as [|h0 hs]; [congruence|]. cbn [map].
    assert (Hmax : forall xs x, Math_max x xs = x \/ Math_max x xs ∈ xs).
    { unfold Math_max. induction xs as [|y xs IH]; intros x; cbn [foldl]; [now left|].
      destruct (IH (Nat.max x y)) as [H|H].
      - rewrite H. destruct (Nat.max_spec x y) as [[_ ->]|[_ ->]]; [right; left | now left].
      - right. now right. }
    destruct (Hmax (map ph_streak hs) (ph_streak h0)) as [H|H].
    + exists h0. split; [left | now symmetry].
    + apply list_elem_of_fmap in H as (h & Heq & Hh). exists h. split; [now right | now symmetry].
Qed.

(** ** More on check-in *)

Lemma habit_by_id_unique db h1 h2 :
  habit_ids_unique db -> h1 ∈ habit_table db -> h2 ∈ habit_table db ->
  habit_id h1 = habit_id h2 -> h1 = h2.
Proof.
  intros Hkey H1 H2 Heq.
  apply list_elem_of_lookup in H1 as [i Hi]. apply list_elem_of_lookup in H2 as [j Hj].
  assert (i = j) as ->; [|congruence].
  apply (NoDup_lookup _ i j (habit_id h1) Hkey); rewrite list_lookup_fmap.
  - now rewrite Hi.
  - rewrite Hj. cbn. now rewrite Heq.
Qed.

Lemma checkin_POST_created user db id body_notes now newId completion db1 :
  checkin_POST user db id body_notes now newId = (json_ok completion 201, db1) ->
  completedAt completion = now /\ habitId completion = id
  /\ db1 = set_completions db (completion_table db ++ [completion])
  /\ exists u habit, user = Some u /\ findHabit db id (user_id u) = Some habit
       /\ userId completion = user_id u
       /\ currentCompletion db habit id (user_id u) now = None.
Proof.
  unfold checkin_POST. destruct user as [u|]; [|discriminate].
  destruct (findHabit db id (user_id u)) as [habit|] eqn:Hhabit; [|discriminate].
  destruct (currentCompletion db habit id (user_id u) now) eqn:Hcur; [discriminate|].
  destruct (existsb _ (completion_table db)); [discriminate|].
  intros Heq. injection Heq as <- <-. cbn [completedAt habitId userId].
  repeat split. exists u, habit. auto.
Qed.

(** X11.  In a store with unique habit ids whose completions record the
    owner of their habit, check-in and undo keep the rule that a habit has
    at most one completion in each of its periods. *)
Theorem checkin_keeps_one_completion_per_period user db id body_notes now newId :
  habit_ids_unique db -> completions_owned db -> one_completion_per_period db ->
  one_completion_per_period (snd (checkin_POST user db id body_notes now newId))
  /\ one_completion_per_period (snd (checkin_DELETE user db id now)).
Proof.
  intros Hkey Howned Hone. split.
  - destruct (checkin_POST user db id body_notes now newId) as [r db1] eqn:Hpost.
    cbn [snd].
    assert (Hcases : db1 = db \/ exists completion, r = json_ok completion 201).
    { revert Hpost. unfold checkin_POST. destruct user as [u|]; [|intros [= <- <-]; now left].
      destruct (findHabit db id (user_id u)); [|intros [= <- <-]; now left].
      destruct (currentCompletion db _ id (user_id u) now); [intros [= <- <-]; now left|].
      destruct (existsb _ (completion_table db)); intros [= <- <-]; [now left|].
      right. eauto. }
    destruct Hcases as [->|[completion ->]]; [exact Hone|].
    apply checkin_POST_created in Hpost
      as (Hat & Hid & -> & u & habit & _ & Hhabit & Hu & Hcur).
    apply findHabit_Some in Hhabit as (Hin & Hhid & Huid).
    rewrite currentCompletion_None in Hcur.
    assert (Hfresh : forall h c, h ∈ habit_table db -> c ∈ completion_table db ->
              habitId c = habit_id h -> habitId completion = habit_id h ->
              periodStart (frequency h) (completedAt c)
              = periodStart (frequency h) (completedAt completion) -> False).
    { intros h c Hh Hc Hch Hnh Hper.
      assert (h = habit) as -> by (apply (habit_by_id_unique db); auto; congruence).
      apply (Hcur c Hc); [congruence | rewrite <- Huid; now apply Howned |].
      apply periodStart_eq_iff. now rewrite Hper, Hat. }
    intros h c1 c2 Hh Hc1 Hc2 H1 H2 Hper.
    cbn [set_completions completion_table habit_table] in Hh, Hc1, Hc2.
    apply elem_of_app in Hc1 as [Hc1|Hc1]; apply elem_of_app in Hc2 as [Hc2|Hc2].
    + now apply (Hone h).
    + apply list_elem_of_singleton in Hc2. subst c2.
      exfalso. apply (Hfresh h c1); auto.
    + apply list_elem_of_singleton in Hc1. subst c1.
      exfalso. apply (Hfresh h c2); auto.
    + apply list_elem_of_singleton in Hc1, Hc2. congruence.
  - unfold checkin_DELETE. destruct user as [u|]; [|exact Hone].
    destruct (findHabit db id (user_id u)) as [habit|]; [|exact Hone].
    destruct (currentCompletion db habit id (user_id u) now) as [completion|]; [|exact Hone].
    intros h c1 c2 Hh Hc1 Hc2. cbn [snd set_completions completion_table habit_table] in *.
    apply list_elem_of_filter in Hc1 as [_ Hc1]. apply list_elem_of_filter in Hc2 as [_ Hc2].
    now apply Hone.
Qed.

Lemma findHabit_None db id uid :
  (forall h, h ∈ habit_table db -> habit_id h = id -> habit_userId h <> uid) ->
  findHabit db id uid = None.
Proof.
  intros Hnone. unfold findHabit.
  destruct (find _ (habit_table db)) as [h|] eqn:Hfind; [|reflexivity].
  apply find_some in Hfind as [Hin Hp]. apply andb_true_iff in Hp as [H1 H2].
  apply bool_decide_eq_true in H1, H2. exfalso.
  apply (Hnone h); auto. now apply list_elem_of_In.
Qed.

(** X12.  A habit that belongs to another user is answered like a habit
    that does not exist: check-in, undo and update all return 404, "Habit
    not found", and leave the store as it was. *)
Theorem foreign_habit_is_not_found user db id body_notes now newId
    new_name new_category new_frequency new_notes new_color :
  habit_ids_unique db ->
  (id ∉ map habit_id (habit_table db)
   \/ exists h, h ∈ habit_table db /\ habit_id h = id /\ habit_userId h <> user_id user) ->
  checkin_POST (Some user) db id body_notes now newId =
    (json_error "Habit not found" 404, db)
  /\ checkin_DELETE (Some user) db id now = (json_error "Habit not found" 404, db)
  /\ (updateHabitSchema new_name = None ->
      habit_PUT (Some user) db id new_name new_category new_frequency new_notes new_color =
        (json_error "Habit not found" 404, db)).
Proof.
  intros Hkey Hcase.
  assert (Hnone : findHabit db id (user_id user) = None).
  { apply findHabit_None. intros h' Hin' Hid'. destruct Hcase as [Habsent|(h & Hin & Hid & Hother)].
    - exfalso. apply Habsent. rewrite <- Hid'.
      apply (list_elem_of_fmap_2 habit_id), Hin'.
    - assert (h' = h) as -> by (apply (habit_by_id_unique db); auto; congruence).
      exact Hother. }
  split; [|split].
  - unfold checkin_POST. now rewrite Hnone.
  - unfold checkin_DELETE. now rewrite Hnone.
  - intros Hvalid. unfold habit_PUT. now rewrite Hvalid, Hnone.
Qed.

Lemma lastCompletions_head_now db id now completion :
  (forall c, c ∈ completion_table db -> habitId c = id -> completedAt c <= now) ->
  completedAt completion = now -> habitId completion = id ->
  exists x rest,
    lastCompletions (set_completions db (completion_table db ++ [completion])) id = x :: rest
    /\ completedAt x = now.
Proof.
  intros Hpast Hat Hid. unfold lastCompletions. cbn [set_completions completion_table].
  set (rows := filter (fun c => habitId c = id) (completion_table db ++ [completion])).
  assert (Hin : completion ∈ rows).
  { apply list_elem_of_filter. split; [exact Hid|].
    apply elem_of_app. right. now apply list_elem_of_singleton. }
  assert (Hle : forall x, x ∈ rows -> completedAt x <= now).
  { intros x Hx. apply list_elem_of_filter in Hx as [Hxid Hx].
    apply elem_of_app in Hx as [Hx|Hx]; [now apply Hpast|].
    apply list_elem_of_singleton in Hx. subst x. lia. }
  pose proof (orderBy_Permutation rows) as Hperm.
  assert (Hsorted : StronglySorted completedAt_desc (orderBy_completedAt_desc rows))
    by (apply Sorted_StronglySorted; [apply _ | apply orderBy_sorted]).
  destruct (orderBy_completedAt_desc rows) as [|x rest].
  { rewrite <- Hperm in Hin. now apply elem_of_nil in Hin. }
  exists x, (take 29 rest). split; [reflexivity|].
  apply StronglySorted_cons in Hsorted as [Hall _]. rewrite Forall_forall in Hall.
  assert (Hx : completedAt x <= now) by (apply Hle; rewrite <- Hperm; left).
  assert (Hc : completedAt completion <= completedAt x).
  { rewrite <- Hperm in Hin. apply elem_of_cons in Hin as [->|Hin]; [lia|].
    apply (Hall completion Hin). }
  lia.
Qed.

(** X13.  After a successful check-in on a habit none of whose
    completions is later than [now], the habits listing at [now] shows the
    habit with a positive streak and, for a daily habit, as completed
    today. *)
Theorem checkin_shows_in_listing user db id body_notes now newId completion db1 hs s :
  (forall c, c ∈ completion_table db -> habitId c = id -> completedAt c <= now) ->
  checkin_POST user db id body_notes now newId = (json_ok completion 201, db1) ->
  body (habits_GET user db1 now) = inr hs ->
  s ∈ hs -> habit_id (hs_habit s) = id ->
  (0 < hs_streak s)%nat
  /\ (frequency (hs_habit s) = daily -> hs_completedToday s = true).
Proof.
  intros Hpast Hpost Hbody Hs Hsid.
  apply checkin_POST_created in Hpost as (Hat & Hid & -> & _).
  destruct (lastCompletions_head_now db id now completion Hpast Hat Hid)
    as (x & rest & Hlast & Hx).
  unfold habits_GET in Hbody. destruct user as [u|]; [|discriminate].
  simpl in Hbody. injection Hbody as <-.
  apply list_elem_of_fmap in Hs as (h & -> & _).
  cbn [hs_habit hs_streak hs_completedToday] in *. rewrite Hsid, Hlast. split.
  - rewrite streak_streakLoop. cbn [streakLoop]. rewrite Hx, Z.eqb_refl.
    pose proof (streakLoop_ge (periodStart (frequency h)) (periodDays (frequency h)) rest
                  (addDays (periodStart (frequency h) now) (- periodDays (frequency h)))
                  1%nat).
    lia.
  - intros ->. unfold completedToday, today. cbn [existsb]. now rewrite Hx, Z.eqb_refl.
Qed.

(** ** Follow and unfollow *)

Lemma findFriendship_Some db follower followed f :
  findFriendship db follower followed = Some f ->
  f ∈ friendship_table db /\ followerId f = follower /\ followingId f = followed.
Proof.
  unfold findFriendship. intros Hfind. apply find_some in Hfind as [Hin Hp].
  apply andb_true_iff in Hp as [H1 H2]. apply bool_decide_eq_true in H1, H2.
  split; [now apply list_elem_of_In | auto].
Qed.

Lemma findFriendship_None db follower followed :
  findFriendship db follower followed = None <->
  forall f, f ∈ friendship_table db -> followerId f = follower -> followingId f <> followed.
Proof.
  unfold findFriendship. split.
  - intros Hfind f Hin H1 H2.
    pose proof (find_none _ _ Hfind f (proj1 (list_elem_of_In _ _) Hin)) as Hp.
    simpl in Hp. apply andb_false_iff in Hp as [Hp|Hp];
      apply bool_decide_eq_false in Hp; contradiction.
  - intros Hnone. destruct (find _ (friendship_table db)) as [f|] eqn:Hfind; [|reflexivity].
    apply find_some in Hfind as [Hin Hp]. apply andb_true_iff in Hp as [H1 H2].
    apply bool_decide_eq_true in H1, H2. exfalso.
    apply (Hnone f); auto. now apply list_elem_of_In.
Qed.

Lemma friends_POST_created user db body_userId newId friendship db1 :
  friends_POST user db body_userId newId = (json_ok friendship 201, db1) ->
  exists u,
    user = Some u
    /\ friendship = {| friendship_id := newId; followerId := user_id u;
                       followingId := body_userId |}
    /\ db1 = set_friendships db (friendship_table db ++ [friendship])
    /\ body_userId <> "" /\ body_userId <> user_id u
    /\ (exists targetUser, targetUser ∈ user_table db /\ user_id targetUser = body_userId)
    /\ findFriendship db (user_id u) body_userId = None
    /\ newId ∉ map friendship_id (friendship_table db).
Proof.
  unfold friends_POST, followSchema. destruct user as [u|]; [|discriminate].
  destruct (strlen body_userId <? 1) eqn:Hlen; [discriminate|].
  destruct (bool_decide (body_userId = user_id u)) eqn:Hself; [discriminate|].
  destruct (find _ (user_table db)) as [targetUser|] eqn:Htarget; [|discriminate].
  destruct (findFriendship db (user_id u) body_userId) eqn:Hfr; [discriminate|].
  destruct (existsb _ (friendship_table db)) eqn:Hfresh; [discriminate|].
  intros Heq. injection Heq as <- <-. exists u.
  split; [reflexivity|]. split; [reflexivity|]. split; [reflexivity|].
  split; [|split; [|split; [|split; [exact Hfr|]]]].
  - intros ->. discriminate.
  - now apply bool_decide_eq_false in Hself.
  - apply find_some in Htarget as [Hin Hid]. apply bool_decide_eq_true in Hid.
    exists targetUser. split; [now apply list_elem_of_In | exact Hid].
  - intros Hin. apply (list_elem_of_fmap friendship_id) in Hin as (f & Heq & Hf).
    apply not_true_iff_false in Hfresh. apply Hfresh, existsb_exists.
    exists f. split; [now apply list_elem_of_In | now apply bool_decide_eq_true].
Qed.

Lemma filter_friendship_id_fresh (l : list Friendship) newId :
  newId ∉ map friendship_id l ->
  filter (fun f => friendship_id f <> newId) l = l.
Proof.
  induction l as [|f l IH]; intros Hfresh; [done|].
  rewrite filter_cons_True.
  - f_equal. apply IH. intros Hin. apply Hfresh. simpl. now right.
  - intros Heq. apply Hfresh. simpl. rewrite Heq. now left.
Qed.

(** X14.  Follow and unfollow keep the follow relation free of
    self-follows and of repeated pairs. *)
Theorem follow_keeps_relation_wellformed user db target newId :
  no_self_follow db -> follow_pairs_unique db ->
  (no_self_follow (snd (friends_POST user db target newId))
   /\ follow_pairs_unique (snd (friends_POST user db target newId)))
  /\ (no_self_follow (snd (friends_DELETE user db target))
      /\ follow_pairs_unique (snd (friends_DELETE user db target))).
Proof.
  intros Hself Hpairs. split.
  - destruct (friends_POST user db target newId) as [r db1] eqn:Hpost. cbn [snd].
    assert (Hcases : db1 = db \/ exists friendship, r = json_ok friendship 201).
    { revert Hpost. unfold friends_POST. destruct user as [u|]; [|intros [= <- <-]; now left].
      destruct (followSchema target); [intros [= <- <-]; now left|].
      destruct (bool_decide _); [intros [= <- <-]; now left|].
      destruct (find _ (user_table db)); [|intros [= <- <-]; now left].
      destruct (findFriendship db (user_id u) s); [intros [= <- <-]; now left|].
      destruct (existsb _ (friendship_table db)); intros [= <- <-]; [now left|].
      right. eauto. }
    destruct Hcases as [->|[friendship ->]]; [auto|].
    apply friends_POST_created in Hpost
      as (u & _ & -> & -> & _ & Hne & _ & Hnone & _).
    rewrite findFriendship_None in Hnone. split.
    + intros f Hf. cbn [set_friendships friendship_table] in Hf.
      apply elem_of_app in Hf as [Hf|Hf]; [now apply Hself|].
      apply list_elem_of_singleton in Hf. subst f. cbn. congruence.
    + unfold follow_pairs_unique in *. cbn [set_friendships friendship_table].
      rewrite map_app. apply NoDup_app. split; [exact Hpairs|].
      split; [|apply NoDup_singleton].
      intros pair Hin Hnew. apply list_elem_of_singleton in Hnew. subst pair.
      apply (list_elem_of_fmap (fun f => (followerId f, followingId f))) in Hin
        as (f & Heq & Hf).
      cbn in Heq. injection Heq as H1 H2. now apply (Hnone f).
  - unfold friends_DELETE. destruct user as [u|]; [|auto].
    destruct (findFriendship db (user_id u) target) as [friendship|]; [|auto].
    cbn [snd set_friendships]. split.
    + intros f Hf. cbn [friendship_table] in Hf.
      apply list_elem_of_filter in Hf as [_ Hf]. now apply Hself.
    + unfold follow_pairs_unique in *. cbn [friendship_table].
      apply (sublist_NoDup _ (map (fun f => (followerId f, followingId f))
                                  (friendship_table db))); [exact Hpairs|].
      apply (fmap_sublist (fun f => (followerId f, followingId f))), sublist_filter.
Qed.

(** X15.  Following the same user again is refused: after a follow that
    succeeded, a second one answers 400, "Already following this user",
    and adds nothing. *)
Theorem follow_twice_is_refused user db target newId friendship db1 newId' :
  friends_POST user db target newId = (json_ok friendship 201, db1) ->
  friends_POST user db1 target newId' =
    (json_error "Already following this user" 400, db1).
Proof.
  intros Hpost.
  apply friends_POST_created in Hpost
    as (u & -> & -> & -> & Hnonempty & Hne & (targetUser & Hin & Hid) & Hnone & _).
  unfold friends_POST, followSchema.
  rewrite (strlen_nonempty _ Hnonempty), (bool_decide_eq_false_2 _ Hne).
  cbn [set_friendships user_table].
  destruct (find _ (user_table db)) as [t|] eqn:Htarget.
  - unfold findFriendship in *. cbn [set_friendships friendship_table].
    rewrite (find_snoc _ _ _ Hnone). cbn [followerId followingId].
    now rewrite !bool_decide_eq_true_2.
  - exfalso. pose proof (find_none _ _ Htarget targetUser
                           (proj1 (list_elem_of_In _ _) Hin)) as Hp.
    simpl in Hp. now apply bool_decide_eq_false in Hp.
Qed.

(** X16.  Unfollowing right after a follow that succeeded gives back the
    store as it was before the follow; unfollowing a user one does not
    follow answers 404, "Not following this user", and changes
    nothing. *)
Theorem follow_unfollow_round_trip user db target newId :
  (forall friendship db1,
     friends_POST (Some user) db target newId = (json_ok friendship 201, db1) ->
     friends_DELETE (Some user) db1 target = (json_ok "Unfollowed successfully" 200, db))
  /\ (target ∉ followedUserIds db (user_id user) ->
      friends_DELETE (Some user) db target =
        (json_error "Not following this user" 404, db)).
Proof.
  split.
  - intros friendship db1 Hpost.
    apply friends_POST_created in Hpost
      as (u & [= <-] & -> & -> & _ & _ & _ & Hnone & Hfresh).
    unfold friends_DELETE, findFriendship in *. cbn [set_friendships friendship_table].
    rewrite (find_snoc _ _ _ Hnone). cbn [followerId followingId].
    rewrite !bool_decide_eq_true_2 by reflexivity. cbn [andb friendship_id].
    rewrite filter_app, filter_cons_False by (intros Hne; now apply Hne).
    rewrite filter_nil, app_nil_r, filter_friendship_id_fresh by exact Hfresh.
    now destruct db.
  - intros Hnot. unfold friends_DELETE.
    replace (findFriendship db (user_id user) target) with (@None Friendship); [reflexivity|].
    symmetry. apply findFriendship_None. intros f Hf Hfol Hing. apply Hnot.
    unfold followedUserIds. rewrite <- Hing.
    apply (list_elem_of_fmap_2 followingId), list_elem_of_filter. auto.
Qed.

Lemma recentActivity_complete db viewer c :
  (length (filter (fun c => userId c ∈ followedUserIds db viewer)
                  (completion_table db)) <= 50)%nat ->
  c ∈ completion_table db -> userId c ∈ followedUserIds db viewer ->
  c ∈ recentActivity db viewer.
Proof.
  intros Hlen Hc Hfollowed. unfold recentActivity. rewrite take_ge.
  - rewrite orderBy_Permutation. apply list_elem_of_filter. auto.
  - now rewrite orderBy_Permutation.
Qed.

(** X17.  After a follow that succeeded the feed of the follower takes in
    the completions of the followed user: while the followed users have at
    most 50 completions between them, each completion of the new one is in
    the feed. *)
Theorem follow_brings_completions_into_feed user db target newId friendship db1 now c :
  friends_POST (Some user) db target newId = (json_ok friendship 201, db1) ->
  (length (filter (fun c => userId c ∈ followedUserIds db1 (user_id user))
                  (completion_table db1)) <= 50)%nat ->
  c ∈ completion_table db -> userId c = target ->
  exists acts a,
    friends_GET (Some user) db1 now = json_ok acts 200 /\ a ∈ acts /\ activity a = c.
Proof.
  intros Hpost Hlen Hc Htarget.
  pose proof (friends_POST_created _ _ _ _ _ _ Hpost)
    as (u & [= <-] & Hf & Hdb1 & _).
  assert (Hin : c ∈ recentActivity db1 (user_id user)).
  { apply recentActivity_complete; [exact Hlen | now subst db1 |].
    subst db1 friendship. unfold followedUserIds. cbn [set_friendships friendship_table].
    rewrite Htarget. apply list_elem_of_fmap.
    exists {| friendship_id := newId; followerId := user_id user; followingId := target |}.
    split; [reflexivity|]. apply list_elem_of_filter. split; [reflexivity|].
    apply elem_of_app. right. now apply list_elem_of_singleton. }
  unfold friends_GET. eexists. eexists. split; [reflexivity|]. split.
  - apply list_elem_of_fmap. exists c. split; [reflexivity | exact Hin].
  - reflexivity.
Qed.

(** X18.  After an unfollow that succeeded, in a store without repeated
    follow pairs, the feed of the former follower holds no event of the
    unfollowed user. *)
Theorem unfollow_removes_events_from_feed user db target message db1 now acts a :
  follow_pairs_unique db ->
  friends_DELETE (Some user) db target = (json_ok message 200, db1) ->
  body (friends_GET (Some user) db1 now) = inr acts ->
  a ∈ acts -> userId (activity a) <> target.
Proof.
  intros Hpairs Hdel Hbody Ha Heq.
  unfold friends_DELETE in Hdel.
  destruct (findFriendship db (user_id user) target) as [friendship|] eqn:Hfind;
    [|discriminate].
  injection Hdel as _ <-.
  apply findFriendship_Some in Hfind as (Hin & Hfol & Hing).
  unfold friends_GET in Hbody. simpl in Hbody. injection Hbody as <-.
  apply list_elem_of_fmap in Ha as (c & -> & Hc). cbn [activity] in Heq.
  apply recentActivity_followed in Hc as (_ & f & Hf & Hffol & Hfing).
  cbn [set_friendships friendship_table] in Hf.
  apply list_elem_of_filter in Hf as [Hid Hf]. apply Hid. f_equal.
  unfold follow_pairs_unique in Hpairs.
  apply list_elem_of_lookup in Hf as [i Hi]. apply list_elem_of_lookup in Hin as [j Hj].
  assert (i = j) as ->; [|congruence].
  apply (NoDup_lookup _ i j (followerId f, followingId f) Hpairs); rewrite list_lookup_fmap.
  - now rewrite Hi.
  - rewrite Hj. cbn. congruence.
Qed.

(** ** User search *)

(** X19.  The user search returns at most 20 users of the store, never
    the viewer and never a user the viewer already follows, each with a
    username or an email that the database matches with the query; while
    at most 20 users qualify, it returns all of them. *)
Theorem users_search_results user db q :
  exists rs,
    users_search_GET (Some user) db q = json_ok rs 200
    /\ (length rs <= 20)%nat
    /\ Forall (fun r => exists u, u ∈ user_table db
                                  /\ sr_id r = user_id u /\ sr_username r = username u
                                  /\ sr_avatar r = avatar u /\ sr_bio r = bio u
                                  /\ searchable db user (search_query q) u) rs
    /\ ((length (filter (searchable db user (search_query q)) (user_table db)) <= 20)%nat ->
        forall u, u ∈ user_table db -> searchable db user (search_query q) u ->
          exists r, r ∈ rs /\ sr_id r = user_id u /\ sr_username r = username u).
Proof using Type*.
  eexists. split; [reflexivity|]. split; [|split].
  - rewrite length_map, length_take. lia.
  - apply Forall_map, Forall_forall. intros u Hu.
    cbn [sr_id sr_username sr_avatar sr_bio].
    apply subseteq_take in Hu. rewrite orderBy_user_createdAt_desc_Permutation in Hu.
    apply list_elem_of_filter in Hu as [Hs Hu]. exists u. auto 10.
  - intros Hlen u Hu Hs.
    assert (Hin : u ∈ take 20 (orderBy_user_createdAt_desc
                                 (filter (searchable db user (search_query q))
                                         (user_table db)))).
    { rewrite take_ge by (now rewrite orderBy_user_createdAt_desc_Permutation).
      rewrite orderBy_user_createdAt_desc_Permutation. apply list_elem_of_filter. auto. }
    eexists. split.
    + apply list_elem_of_fmap. exists u. split; [reflexivity | exact Hin].
    + split; reflexivity.
Qed.

(** X20.  Every user the search returns can be followed: with user ids
    that are not empty and a fresh id for the new row, following a search
    result answers 201 and adds the pair (viewer, result). *)
Theorem search_result_can_be_followed user db q rs r newId :
  (forall u, u ∈ user_table db -> user_id u <> "") ->
  newId ∉ map friendship_id (friendship_table db) ->
  body (users_search_GET (Some user) db q) = inr rs -> r ∈ rs ->
  let friendship :=
    {| friendship_id := newId; followerId := user_id user;
       followingId := sr_id r |} in
  friends_POST (Some user) db (sr_id r) newId =
    (json_ok friendship 201, set_friendships db (friendship_table db ++ [friendship])).
Proof using Type*.
  intros Hids Hfresh Hbody Hr. unfold users_search_GET in Hbody. simpl in Hbody.
  injection Hbody as <-. apply list_elem_of_fmap in Hr as (u & -> & Hu).
  apply subseteq_take in Hu. rewrite orderBy_user_createdAt_desc_Permutation in Hu.
  apply list_elem_of_filter in Hu as [(Hne & Hnot & _) Hu]. cbn [sr_id].
  unfold friends_POST, followSchema.
  rewrite (strlen_nonempty _ (Hids u Hu)), (bool_decide_eq_false_2 _ Hne).
  destruct (find _ (user_table db)) as [t|] eqn:Htarget.
  - replace (findFriendship db (user_id user) (user_id u)) with (@None Friendship).
    + replace (existsb _ (friendship_table db)) with false; [reflexivity|].
      symmetry. apply not_true_iff_false. rewrite existsb_exists.
      intros (f & Hf & Hid). apply bool_decide_eq_true in Hid. apply Hfresh.
      rewrite <- Hid. apply (list_elem_of_fmap_2 friendship_id), list_elem_of_In, Hf.
    + symmetry. apply findFriendship_None. intros f Hf Hfol Hing. apply Hnot.
      unfold followedUserIds. rewrite <- Hing.
      apply (list_elem_of_fmap_2 followingId), list_elem_of_filter. auto.
  - exfalso. pose proof (find_none _ _ Htarget u (proj1 (list_elem_of_In _ _) Hu)) as Hp.
    simpl in Hp. now apply bool_decide_eq_false in Hp.
Qed.

(** ** More on the accounts *)

Lemma signup_POST_created db body_email body_password body_username now newId r db1 :
  signup_POST db body_email body_password body_username now newId = (r, db1) ->
  status r = 201 ->
  exists email' username',
    signupSchema body_email body_password body_username
      = inr (email', body_password, username')
    /\ let newUser := {| user_id := newId; email := email'; username := username';
                         password := hashPassword body_password;
                         bio := None; avatar := None |} in
       r = with_cookie
             (json_ok {| signup_success := true;
                         signup_user := select_user newUser;
                         signup_user_createdAt := now;
                         signup_message := "Registration successful" |} 201)
             (auth_cookie (generateToken newId))
       /\ db1 = set_users db (user_table db ++ [newUser])
       /\ (forall u, u ∈ user_table db ->
             toLowerCase (email u) <> toLowerCase email'
             /\ toLowerCase (username u) <> toLowerCase username').
Proof.
  unfold signup_POST.
  destruct (signupSchema _ _ _) as [message|[[email' password'] username']] eqn:Hparse;
    [intros [= <- <-]; discriminate|].
  assert (password' = body_password) as ->.
  { revert Hparse. unfold signupSchema.
    repeat (match goal with |- context [if ?b then _ else _] => destruct b end;
            try discriminate).
    now intros [= _ <- _]. }
  destruct (find _ (user_table db)) as [existingUser|] eqn:Hfind;
    [intros [= <- <-]; discriminate|].
  destruct (existsb _ (user_table db)); [intros [= <- <-]; discriminate|].
  intros [= <- <-] _. exists email', username'. split; [reflexivity|].
  cbv zeta. split; [reflexivity|]. split; [reflexivity|].
  intros u Hu. pose proof (find_none _ _ Hfind u (proj1 (list_elem_of_In _ _) Hu)) as Hp.
  simpl in Hp. apply orb_false_iff in Hp as [H1 H2]. unfold equals_insensitive in *.
  apply bool_decide_eq_false in H1, H2. auto.
Qed.

Lemma user_by_id_unique db u1 u2 :
  user_ids_unique db -> u1 ∈ user_table db -> u2 ∈ user_table db ->
  user_id u1 = user_id u2 -> u1 = u2.
Proof.
  intros Hkey H1 H2 Heq.
  apply list_elem_of_lookup in H1 as [i Hi]. apply list_elem_of_lookup in H2 as [j Hj].
  assert (i = j) as ->; [|congruence].
  apply (NoDup_lookup _ i j (user_id u1) Hkey); rewrite list_lookup_fmap.
  - now rewrite Hi.
  - rewrite Hj. cbn. now rewrite Heq.
Qed.

(** What a profile update that goes through does to the store. *)
Lemma profile_PUT_updated user db new_username new_bio new_avatar r db1 :
  user_ids_unique db ->
  profile_PUT user db new_username new_bio new_avatar = (r, db1) ->
  db1 = db
  \/ exists u row,
       user = Some u /\ row ∈ user_table db /\ user_id row = user_id u
       /\ (forall x, x ∈ user_table db -> x <> row ->
             username x <> username (update_user row new_username new_bio new_avatar))
       /\ db1 = set_users db
                  (map (fun x => if bool_decide (x = row)
                                 then update_user row new_username new_bio new_avatar
                                 else x)
                       (user_table db)).
Proof.
  intros Hkey. unfold profile_PUT. destruct user as [u|]; [|intros [= <- <-]; now left].
  destruct (updateProfileSchema _ _ _); [intros [= <- <-]; now left|].
  match goal with |- context [match ?e with Some _ => _ | None => _ end] =>
    destruct e end; [intros [= <- <-]; now left|].
  destruct (find _ (user_table db)) as [row|] eqn:Hrow; [|intros [= <- <-]; now left].
  destruct (existsb _ (user_table db)) eqn:Hindex; intros [= <- <-]; [now left|].
  right. apply find_some in Hrow as [Hrin Hrid]. apply bool_decide_eq_true in Hrid.
  apply list_elem_of_In in Hrin. exists u, row.
  split; [reflexivity|]. split; [exact Hrin|]. split; [exact Hrid|]. split.
  - intros x Hx Hne Hsame. apply not_true_iff_false in Hindex. apply Hindex, existsb_exists.
    exists x. split; [now apply list_elem_of_In|].
    apply andb_true_iff. split; [|now apply bool_decide_eq_true].
    apply negb_true_iff, bool_decide_eq_false. intros Hid. apply Hne.
    apply (user_by_id_unique db); auto. congruence.
  - f_equal. apply map_ext_in. intros x Hx. apply list_elem_of_In in Hx.
    destruct (bool_decide (user_id x = user_id u)) eqn:Hid.
    + apply bool_decide_eq_true in Hid.
      assert (x = row) as -> by (apply (user_by_id_unique db); auto; congruence).
      now rewrite bool_decide_eq_true_2.
    + apply bool_decide_eq_false in Hid.
      rewrite bool_decide_eq_false_2; [reflexivity|]. intros ->. now apply Hid.
Qed.

Lemma NoDup_map_update {A K} `{EqDecision A} (key : A -> K) (l : list A) (row row' : A) :
  NoDup (map key l) ->
  (forall x, x ∈ l -> x <> row -> key x <> key row') ->
  NoDup (map key (map (fun x => if bool_decide (x = row) then row' else x) l)).
Proof.
  induction l as [|a l IH]; intros Hnd Hfresh; [constructor|].
  cbn [map] in *. apply NoDup_cons in Hnd as [Ha Hnd]. apply NoDup_cons. split.
  - intros Hin. apply list_elem_of_fmap in Hin as (y & Hy & Hin).
    apply list_elem_of_fmap in Hin as (x & -> & Hx).
    destruct (bool_decide (a = row)) eqn:Hrow; destruct (bool_decide (x = row)) eqn:Hxrow.
    + apply bool_decide_eq_true in Hrow, Hxrow. subst. apply Ha.
      now apply (list_elem_of_fmap_2 key).
    + apply bool_decide_eq_false in Hxrow.
      apply (Hfresh x); [now right | exact Hxrow | now symmetry].
    + apply bool_decide_eq_false in Hrow.
      apply (Hfresh a); [left | exact Hrow | exact Hy].
    + apply Ha. rewrite Hy. now apply (list_elem_of_fmap_2 key).
  - apply IH; [exact Hnd|]. intros x Hx. apply Hfresh. now right.
Qed.

(** X21.  Signup and profile update keep the emails of the users
    different up to case (the user ids being unique). *)
Theorem emails_stay_unique user db body_email body_password body_username now newId
    new_username new_bio new_avatar :
  user_ids_unique db -> emails_unique_ci db ->
  emails_unique_ci (snd (signup_POST db body_email body_password body_username now newId))
  /\ emails_unique_ci (snd (profile_PUT user db new_username new_bio new_avatar)).
Proof.
  intros Hkey Hinv. split.
  - unfold signup_POST.
    destruct (signupSchema _ _ _) as [message|[[email' password'] username']]; [exact Hinv|].
    destruct (find _ (user_table db)) as [existingUser|] eqn:Hfind; [exact Hinv|].
    destruct (existsb _ (user_table db)); [exact Hinv|].
    unfold emails_unique_ci in *. cbn [snd set_users user_table].
    rewrite map_app. cbn [map email]. apply NoDup_app. split; [exact Hinv|].
    split; [|apply NoDup_singleton].
    intros lower Hin Hnew. apply list_elem_of_singleton in Hnew. subst lower.
    apply (list_elem_of_fmap (fun u => toLowerCase (email u))) in Hin as (x & Heq & Hx).
    pose proof (find_none _ _ Hfind x (proj1 (list_elem_of_In _ _) Hx)) as Hx'.
    simpl in Hx'. apply orb_false_iff in Hx' as [Hx' _]. unfold equals_insensitive in Hx'.
    apply bool_decide_eq_false in Hx'. congruence.
  - destruct (profile_PUT user db new_username new_bio new_avatar) as [r db1] eqn:Hput.
    apply profile_PUT_updated in Hput as [->|(u & row & _ & Hrow & _ & _ & ->)];
      [exact Hinv | | exact Hkey].
    unfold emails_unique_ci in *. cbn [snd set_users user_table]. rewrite map_map.
    erewrite map_ext; [exact Hinv|].
    intros x. cbn beta. destruct (bool_decide (x = row)) eqn:Hx; [|reflexivity].
    apply bool_decide_eq_true in Hx. now subst x.
Qed.

(** X22.  Signup and profile update keep the usernames of the users
    different letter for letter (the user ids being unique); a profile
    update to the exact username of another user answers 400, "Username
    already taken", and changes nothing. *)
Theorem usernames_stay_unique_exactly user db body_email body_password body_username now
    newId new_username new_bio new_avatar :
  user_ids_unique db -> usernames_unique_exact db ->
  usernames_unique_exact
    (snd (signup_POST db body_email body_password body_username now newId))
  /\ usernames_unique_exact (snd (profile_PUT user db new_username new_bio new_avatar))
  /\ (forall u name' x,
        user = Some u -> new_username = Some name' ->
        updateProfileSchema new_username new_bio new_avatar = None ->
        x ∈ user_table db -> username x = name' -> name' <> username u ->
        profile_PUT user db new_username new_bio new_avatar =
          (json_error "Username already taken" 400, db)).
Proof.
  intros Hkey Hinv. split; [|split].
  - unfold signup_POST.
    destruct (signupSchema _ _ _) as [message|[[email' password'] username']]; [exact Hinv|].
    destruct (find _ (user_table db)) as [existingUser|] eqn:Hfind; [exact Hinv|].
    destruct (existsb _ (user_table db)); [exact Hinv|].
    unfold usernames_unique_exact in *. cbn [snd set_users user_table].
    rewrite map_app. cbn [map username]. apply NoDup_app. split; [exact Hinv|].
    split; [|apply NoDup_singleton].
    intros uname Hin Hnew. apply list_elem_of_singleton in Hnew. subst uname.
    apply (list_elem_of_fmap username) in Hin as (x & Heq & Hx).
    pose proof (find_none _ _ Hfind x (proj1 (list_elem_of_In _ _) Hx)) as Hx'.
    simpl in Hx'. apply orb_false_iff in Hx' as [_ Hx']. unfold equals_insensitive in Hx'.
    apply bool_decide_eq_false in Hx'. congruence.
  - destruct (profile_PUT user db new_username new_bio new_avatar) as [r db1] eqn:Hput.
    apply profile_PUT_updated in Hput as [->|(u & row & _ & Hrow & _ & Hfresh & ->)];
      [exact Hinv | | exact Hkey].
    unfold usernames_unique_exact in *. cbn [snd set_users user_table].
    now apply NoDup_map_update.
  - intros u name' x -> -> Hparse Hx Hname Hne.
    now apply (profile_PUT_rejects_exact_username u db name' new_bio new_avatar x).
Qed.

(** X23.  Signup then login: with a password check that accepts a
    password against its own hash and an email without blanks around it,
    logging in with the credentials of a signup that succeeded answers 200
    with the user the signup returned (id, email, username, bio and
    avatar; the body of the signup holds the creation time and a message
    besides) and sets a cookie named auth-token that lasts seven days. *)
Theorem signup_then_login db body_email body_password body_username now newId r db1 :
  (forall p, verifyPassword p (hashPassword p) = true) ->
  trim body_email = body_email ->
  signup_POST db body_email body_password body_username now newId = (r, db1) ->
  status r = 201 ->
  exists payload c,
    body r = inr payload
    /\ view_id (signup_user payload) = newId
    /\ status (login_POST db1 body_email body_password) = 200
    /\ body (login_POST db1 body_email body_password) = inr (signup_user payload)
    /\ set_cookie (login_POST db1 body_email body_password) = Some c
    /\ cookie_name c = "auth-token"
    /\ cookie_maxAge c = 60 * 60 * 24 * 7.
Proof.
  intros Hverify Htrim Hsignup Hstatus.
  apply signup_POST_created in Hsignup as (email' & username' & Hparse & Hr); [|exact Hstatus].
  cbv zeta in Hr. destruct Hr as (-> & -> & Hnew).
  assert (Hvalid : isEmail body_email = true /\ body_password <> ""
                   /\ email' = toLowerCase body_email).
  { revert Hparse. unfold signupSchema.
    destruct (isEmail body_email); [|discriminate]. cbn [negb].
    repeat (match goal with |- context [if ?b then _ else _] => destruct b eqn:? end;
            try discriminate).
    intros [= <- _]. rewrite Htrim. split; [reflexivity|]. split; [|reflexivity].
    intros ->. discriminate. }
  destruct Hvalid as (Hemail & Hpw & ->).
  unfold login_POST, loginSchema. rewrite Hemail, (strlen_nonempty _ Hpw). cbn [negb].
  unfold findUserByEmail. cbn [set_users user_table].
  rewrite find_snoc.
  - unfold equals_insensitive. cbn [email].
    rewrite bool_decide_eq_true_2 by reflexivity. cbn [password].
    rewrite Hverify. cbn [negb].
    eexists _, _. split; [reflexivity|]. split; [reflexivity|].
    split; [reflexivity|]. split; [reflexivity|]. split; [reflexivity|].
    split; reflexivity.
  - destruct (find _ (user_table db)) as [u|] eqn:Hfind; [|reflexivity].
    apply find_some in Hfind as [Hin Hp]. unfold equals_insensitive in Hp.
    apply bool_decide_eq_true in Hp. apply list_elem_of_In in Hin.
    destruct (Hnew u Hin) as [Hne _]. exfalso. apply Hne. exact Hp.
Qed.

(** ** Habit names *)

Lemma trimEnd_idem s : trimEnd (trimEnd s) = trimEnd s.
Proof.
  induction s as [|c s IH]; [reflexivity|]. cbn [trimEnd].
  destruct (trimEnd s) as [|d r] eqn:Hr.
  - destruct (is_space c) eqn:Hc; [reflexivity|]. cbn [trimEnd]. now rewrite Hc.
  - cbn [trimEnd]. cbn [trimEnd] in IH. now rewrite IH.
Qed.

Lemma trimStart_head s :
  trimStart s = EmptyString
  \/ exists c s', trimStart s = String c s' /\ is_space c = false.
Proof.
  induction s as [|c s IH]; [now left|]. cbn [trimStart].
  destruct (is_space c) eqn:Hc; [exact IH|]. right. eauto.
Qed.

Lemma trimEnd_head c s :
  is_space c = false -> exists r, trimEnd (String c s) = String c r.
Proof.
  intros Hc. cbn [trimEnd]. destruct (trimEnd s); [rewrite Hc|]; eauto.
Qed.

Lemma trim_idem s : trim (trim s) = trim s.
Proof.
  unfold trim. destruct (trimStart_head s) as [->|(c & s' & -> & Hc)]; [reflexivity|].
  destruct (trimEnd_head c s' Hc) as [r Hr]. rewrite Hr.
  cbn [trimStart]. rewrite Hc, <- Hr. apply trimEnd_idem.
Qed.

Lemma NoDup_map_inj_on {A K} (key : A -> K) (l : list A) x y :
  NoDup (map key l) -> x ∈ l -> y ∈ l -> key x = key y -> x = y.
Proof.
  intros Hnd Hx Hy Heq.
  apply list_elem_of_lookup in Hx as [i Hi]. apply list_elem_of_lookup in Hy as [j Hj].
  assert (i = j) as ->; [|congruence].
  apply (NoDup_lookup _ i j (key x) Hnd); rewrite list_lookup_fmap.
  - now rewrite Hi.
  - rewrite Hj. cbn. now rewrite Heq.
Qed.

(** What a habit update that goes through does to the store. *)
Lemma habit_PUT_updated user db id new_name new_category new_frequency new_notes new_color
    r db1 :
  habit_ids_unique db ->
  habit_PUT user db id new_name new_category new_frequency new_notes new_color = (r, db1) ->
  db1 = db
  \/ exists u existingHabit,
       user = Some u /\ existingHabit ∈ habit_table db
       /\ habit_id existingHabit = id /\ habit_userId existingHabit = user_id u
       /\ (forall n h, new_name = Some n -> n <> name existingHabit ->
             h ∈ habit_table db -> habit_userId h = user_id u -> habit_id h <> id ->
             name h <> trim n)
       /\ db1 = set_habits db
                  (map (fun h => if bool_decide (h = existingHabit)
                                 then update_habit existingHabit new_name new_category
                                        new_frequency new_notes new_color
                                 else h)
                       (habit_table db)).
Proof.
  intros Hkey. unfold habit_PUT. destruct user as [u|]; [|intros [= <- <-]; now left].
  destruct (updateHabitSchema new_name) eqn:Hparse; [intros [= <- <-]; now left|].
  destruct (findHabit db id (user_id u)) as [existingHabit|] eqn:Hhabit;
    [|intros [= <- <-]; now left].
  apply findHabit_Some in Hhabit as (Hin & Hid & Huid).
  match goal with |- context [match ?e with Some _ => _ | None => _ end] =>
    destruct e eqn:Hdup end; intros [= <- <-]; [now left|].
  right. exists u, existingHabit. do 4 (split; [auto|]). split.
  - intros n h -> Hne Hh Hhu Hhid Hname.
    assert (Hnonempty : n <> "").
    { intros ->. unfold updateHabitSchema in Hparse. discriminate. }
    rewrite (bool_decide_eq_false_2 _ Hnonempty), (bool_decide_eq_false_2 _ Hne) in Hdup.
    cbn [negb andb] in Hdup.
    pose proof (find_none _ _ Hdup h (proj1 (list_elem_of_In _ _) Hh)) as Hp.
    simpl in Hp. rewrite (bool_decide_eq_true_2 _ Hhu), (bool_decide_eq_true_2 _ Hname),
      (bool_decide_eq_false_2 _ Hhid) in Hp. discriminate.
  - f_equal. apply map_ext_in. intros h Hh. apply list_elem_of_In in Hh.
    destruct (bool_decide (habit_id h = id)) eqn:Hhid.
    + apply bool_decide_eq_true in Hhid.
      assert (h = existingHabit) as -> by (apply (habit_by_id_unique db); auto; congruence).
      now rewrite bool_decide_eq_true_2.
    + apply bool_decide_eq_false in Hhid.
      rewrite bool_decide_eq_false_2; [reflexivity|]. intros ->. now apply Hhid.
Qed.

(** X24.  In a store with unique habit ids, creating and updating habits
    keep the names of one user's habits different from each other and
    stored trimmed. *)
Theorem habit_names_stay_unique user db body_name body_category body_frequency
    body_notes body_color now newId id new_name new_category new_frequency new_notes
    new_color :
  habit_ids_unique db -> habit_names_unique db -> habit_names_trimmed db ->
  (habit_names_unique
     (snd (habits_POST user db body_name body_category body_frequency body_notes
             body_color now newId))
   /\ habit_names_trimmed
        (snd (habits_POST user db body_name body_category body_frequency body_notes
                body_color now newId)))
  /\ (habit_names_unique
        (snd (habit_PUT user db id new_name new_category new_frequency new_notes new_color))
      /\ habit_names_trimmed
           (snd (habit_PUT user db id new_name new_category new_frequency new_notes
                   new_color))).
Proof.
  intros Hkey Huniq Htrim. split.
  - unfold habits_POST. destruct user as [u|]; [|auto].
    destruct (createHabitSchema _ _ _) as [message|[[name' category'] frequency']]; [auto|].
    destruct (find _ (habit_table db)) as [existingHabit|] eqn:Hfind; [auto|].
    destruct (existsb _ (habit_table db)); [auto|].
    cbn [snd]. split.
    + unfold habit_names_unique in *. cbn [set_habits habit_table].
      rewrite map_app. cbn [map habit_userId name]. apply NoDup_app. split; [exact Huniq|].
      split; [|apply NoDup_singleton].
      intros key Hin Hnew. apply list_elem_of_singleton in Hnew. subst key.
      apply (list_elem_of_fmap (fun h => (habit_userId h, name h))) in Hin as (h & Heq & Hh).
      injection Heq as Hu Hn.
      pose proof (find_none _ _ Hfind h (proj1 (list_elem_of_In _ _) Hh)) as Hp.
      simpl in Hp. rewrite bool_decide_eq_true_2, bool_decide_eq_true_2 in Hp by congruence.
      discriminate.
    + intros h Hh. cbn [set_habits habit_table] in Hh.
      apply elem_of_app in Hh as [Hh|Hh]; [now apply Htrim|].
      apply list_elem_of_singleton in Hh. subst h. cbn [name]. apply trim_idem.
  - destruct (habit_PUT user db id new_name new_category new_frequency new_notes new_color)
      as [r db1] eqn:Hput.
    apply habit_PUT_updated in Hput
      as [->|(u & existingHabit & _ & Hin & Hid & Huid & Hdup & ->)]; [auto | | exact Hkey].
    cbn [snd]. split.
    + unfold habit_names_unique in *. cbn [set_habits habit_table].
      apply NoDup_map_update; [exact Huniq|].
      intros h Hh Hne Hsame. cbn [update_habit habit_userId name] in Hsame.
      injection Hsame as Hu Hn.
      assert (Hhid : habit_id h <> id).
      { intros Heq. apply Hne. apply (habit_by_id_unique db); auto. congruence. }
      assert (Hold : name h <> name existingHabit).
      { intros Heq. apply Hne.
        apply (NoDup_map_inj_on (fun h => (habit_userId h, name h)) (habit_table db));
          auto. congruence. }
      destruct new_name as [n|]; [|contradiction].
      destruct (decide (n = name existingHabit)) as [->|Hnn].
      * apply Hold. rewrite Hn. now apply Htrim.
      * apply (Hdup n h); auto. congruence.
    + intros h Hh. cbn [set_habits habit_table] in Hh.
      apply list_elem_of_fmap in Hh as (h0 & -> & Hh0).
      destruct (bool_decide (h0 = existingHabit)); [|now apply Htrim].
      cbn [update_habit name]. destruct new_name as [n|]; [apply trim_idem | now apply Htrim].
Qed.

(** X25.  A habit name made of blanks only passes the check that a name
    is given and is stored as the empty name; after that, the same user is
    refused any other name of blanks as a duplicate. *)
Theorem blank_habit_name_is_stored_empty user db body_name body_category body_frequency
    body_notes body_color now newId category' frequency' :
  1 <= strlen body_name <= 100 -> trim body_name = "" ->
  parse_category body_category = Some category' ->
  parse_frequency body_frequency = Some frequency' ->
  (forall h, h ∈ habit_table db -> habit_userId h = user_id user -> name h <> "") ->
  newId ∉ map habit_id (habit_table db) ->
  exists habit,
    habits_POST (Some user) db body_name body_category body_frequency body_notes
      body_color now newId
    = (json_ok habit 201, set_habits db (habit_table db ++ [habit]))
    /\ name habit = ""
    /\ forall body_name' notes' color' now' newId',
         1 <= strlen body_name' <= 100 -> trim body_name' = "" ->
         habits_POST (Some user) (set_habits db (habit_table db ++ [habit])) body_name'
           body_category body_frequency notes' color' now' newId'
         = (json_error "You already have a habit with this name" 400,
            set_habits db (habit_table db ++ [habit])).
Proof.
  intros Hlen Hblank Hcat Hfreq Hnone Hfresh.
  assert (Hparse : forall n, 1 <= strlen n <= 100 ->
            createHabitSchema n body_category body_frequency = inr (n, category', frequency')).
  { intros n Hn. unfold createHabitSchema.
    replace (strlen n <? 1) with false by (symmetry; apply Z.ltb_ge; lia).
    replace (100 <? strlen n) with false by (symmetry; apply Z.ltb_ge; lia).
    now rewrite Hcat, Hfreq. }
  eexists. split; [|split].
  - unfold habits_POST. rewrite (Hparse _ Hlen), Hblank.
    replace (find _ (habit_table db)) with (@None Habit).
    + replace (existsb _ (habit_table db)) with false; [reflexivity|].
      symmetry. apply not_true_iff_false. rewrite existsb_exists.
      intros (h & Hh & Hid). apply bool_decide_eq_true in Hid. apply Hfresh.
      rewrite <- Hid. apply (list_elem_of_fmap_2 habit_id), list_elem_of_In, Hh.
    + symmetry. destruct (find _ (habit_table db)) as [h|] eqn:Hfind; [|reflexivity].
      apply find_some in Hfind as [Hh Hp]. apply andb_true_iff in Hp as [H1 H2].
      apply bool_decide_eq_true in H1, H2. exfalso.
      apply (Hnone h); auto. now apply list_elem_of_In.
  - reflexivity.
  - intros body_name' notes' color' now' newId' Hlen' Hblank'.
    unfold habits_POST. rewrite (Hparse _ Hlen'), Hblank'.
    cbn [set_habits habit_table].
    match goal with |- context [find ?p (?l ++ [?x])] =>
      destruct (find p (l ++ [x])) as [h|] eqn:Hfind end; [reflexivity|].
    exfalso.
    match type of Hfind with find _ (_ ++ [?x]) = None =>
      pose proof (find_none _ _ Hfind x) as Hp end.
    simpl in Hp. rewrite !bool_decide_eq_true_2 in Hp by reflexivity.
    assert (true && true = false); [|discriminate].
    apply Hp. apply in_or_app. right. now left.
Qed.

End HealthTracker.

(** * The properties at concrete inputs *)

(** ** Scenarios of the spec, in the UTC zone *)

(** Scenario A: completions today and on the two days before. *)
Example scenario_A :
  habitStats 0 daily (sample_run 3 1 wed_noon) wed_noon =
  {| stats_streak := 3; stats_progress := 10; stats_completedToday := true |}.
Proof. vm_compute. reflexivity. Qed.

(** Scenario B: completions today and two days ago, none yesterday. *)
Example scenario_B :
  streak 0 daily
    [sample_completion 0 "h1" "u1" wed_noon;
     sample_completion 1 "h1" "u1" (wed_noon - 2 * msPerDay)] wed_noon = 1%nat.
Proof. vm_compute. reflexivity. Qed.

(** Scenario C: a weekly habit, completions this week and last week. *)
Example scenario_C :
  streak 0 weekly (sample_run 2 7 wed_noon) wed_noon = 2%nat.
Proof. vm_compute. reflexivity. Qed.

(** The loops walk the list as it is given: the same two completions in
    ascending order stop the walk at the first, and count nothing. *)
Example streak_walks_given_order :
  streak 0 daily (sample_run 2 1 wed_noon) wed_noon = 2%nat
  /\ streak 0 daily (rev (sample_run 2 1 wed_noon)) wed_noon = 0%nat.
Proof. vm_compute. split; reflexivity. Qed.

(** A zone five hours west of UTC: 03:00 UTC on Wednesday is still
    Tuesday there. *)
Example scenario_zone :
  getDay (-18000000) (wed_noon - 9 * 3600000) = 2
  /\ getDay 0 (wed_noon - 9 * 3600000) = 3.
Proof. vm_compute. split; reflexivity. Qed.

Ltac run_cases H :=
  repeat match type of H with
         | _ !! ?i = Some _ =>
             destruct i as [|i];
             [injection H as <-; vm_compute; reflexivity | simpl in H]
         end;
  try discriminate.

(** ** C1 *)

(** C1.  GET /api/habits at Wednesday noon for a weekly habit whose one
    completion was made at that instant: the completion is of the current
    week and the streak counts it, yet [completedToday] is false.  For a
    daily habit the same completion is reported. *)
Theorem completedToday_weekly_misses_current_week :
  let c := sample_completion 0 "h1" "u1" wed_noon in
  let db := sample_store [sample_user "u1" "ann"] [sample_habit "h1" "u1" weekly] [c] [] in
  periodStart 0 weekly (completedAt c) = periodStart 0 weekly wed_noon
  /\ completedToday 0 weekly [c] wed_noon = false
  /\ completedToday 0 daily [c] wed_noon = true
  /\ (exists h, body (habits_GET 0 (Some (sample_user "u1" "ann")) db wed_noon) = inr [h]
                /\ hs_streak h = 1%nat /\ hs_completedToday h = false).
Proof.
  vm_compute. repeat split. eexists. repeat split.
Qed.

(** ** C8 *)

(** C8.  PUT /api/profile by user ["bob"] with the username ["Alice"]
    while another user is ["alice"]: the lookup for a duplicate compares
    the spelling, finds nobody, and the update goes through with status
    200; the store, in which no two usernames were equal up to case, now
    holds ["alice"] and ["Alice"]. *)
Theorem profile_PUT_breaks_username_uniqueness :
  let alice := sample_user "u1" "alice" in
  let bob := sample_user "u2" "bob" in
  let db := sample_store [alice; bob] [] [] [] in
  let result := profile_PUT (fun _ => true) (Some bob) db (Some "Alice") None None in
  usernames_unique_ci db
  /\ status (fst result) = 200
  /\ map username (user_table (snd result)) = ["alice"; "Alice"]
  /\ ~ usernames_unique_ci (snd result).
Proof.
  cbv zeta. split; [|split; [|split]].
  - unfold usernames_unique_ci. apply (bool_decide_unpack _). vm_compute. exact I.
  - vm_compute. reflexivity.
  - vm_compute. reflexivity.
  - unfold usernames_unique_ci. vm_compute. intros Hnd.
    apply NoDup_cons in Hnd as [Hnotin _]. apply Hnotin. left.
Qed.

(** ** Witnesses *)

Lemma habitStats_order_independent_witness :
  habitStats 0 daily
    (take 30 (orderBy_completedAt_desc (sample_run 3 1 wed_noon))) wed_noon =
  habitStats 0 daily
    (take 30 (orderBy_completedAt_desc (rev (sample_run 3 1 wed_noon)))) wed_noon.
Proof.
  apply (habitStats_order_independent 0 daily
           (sample_run 3 1 wed_noon) (rev (sample_run 3 1 wed_noon)) wed_noon).
  apply Permutation_rev.
Defined.

Lemma streak_consecutive_run_witness :
  streak 0 daily
    (sample_run 3 1 wed_noon ++ [sample_completion 9 "h1" "u1" (wed_noon - 4 * msPerDay)])
    wed_noon = 3%nat
  /\ streak 0 weekly
       (sample_run 2 7 wed_noon ++ [sample_completion 9 "h1" "u1" (wed_noon - 21 * msPerDay)])
       wed_noon = 2%nat.
Proof.
  split.
  - apply (streak_consecutive_run 0 daily wed_noon (sample_run 3 1 wed_noon)
             [sample_completion 9 "h1" "u1" (wed_noon - 4 * msPerDay)]).
    + intros i c H. run_cases H.
    + vm_compute. reflexivity.
  - apply (streak_consecutive_run 0 weekly wed_noon (sample_run 2 7 wed_noon)
             [sample_completion 9 "h1" "u1" (wed_noon - 21 * msPerDay)]).
    + intros i c H. run_cases H.
    + vm_compute. reflexivity.
Defined.

Lemma progress_formula_bounds_monotone_witness :
  let l1 := sample_run 3 1 wed_noon in
  let l2 := [sample_completion 9 "h1" "u1" (wed_noon - 40 * msPerDay)] in
  let c := sample_completion 8 "h1" "u1" (wed_noon - 5 * msPerDay) in
  progress daily (l1 ++ l2) wed_noon = 10
  /\ progress daily (l1 ++ l2) wed_noon <= progress daily (l1 ++ c :: l2) wed_noon.
Proof.
  cbv zeta. split; [vm_compute; reflexivity|].
  apply (proj2 (proj2 (progress_formula_bounds_monotone daily
                         (sample_run 3 1 wed_noon
                          ++ [sample_completion 9 "h1" "u1" (wed_noon - 40 * msPerDay)])
                         wed_noon))).
  - reflexivity.
  - vm_compute. discriminate.
Defined.

Lemma checkIn_once_per_period_witness :
  let ann := sample_user "u1" "ann" in
  let habit := sample_habit "h1" "u1" daily in
  let yesterday := sample_completion 0 "h1" "u1" (wed_noon - msPerDay) in
  let db := sample_store [ann] [habit] [yesterday] [] in
  let morning := sample_completion 1 "h1" "u1" (wed_noon - 3 * 3600000) in
  let db_done := sample_store [ann] [habit] [yesterday; morning] [] in
  checkin_POST 0 (Some ann) db_done "h1" None wed_noon "C" =
    (json_error "Already completed for this period" 400, db_done)
  /\ exists completion,
       completedAt completion = wed_noon
       /\ checkin_POST 0 (Some ann) db "h1" None wed_noon "C" =
          (json_ok completion 201,
           set_completions db (completion_table db ++ [completion])).
Proof.
  cbv zeta. split.
  - refine (proj1 (checkIn_once_per_period 0 (sample_user "u1" "ann")
                     (sample_store [sample_user "u1" "ann"] [sample_habit "h1" "u1" daily]
                        [sample_completion 0 "h1" "u1" (wed_noon - msPerDay);
                         sample_completion 1 "h1" "u1" (wed_noon - 3 * 3600000)] [])
                     "h1" None wed_noon "C" (sample_habit "h1" "u1" daily) _ _) _).
    + vm_compute. reflexivity.
    + intros c h Hc Hh _. apply list_elem_of_singleton in Hh. subst h.
      apply elem_of_cons in Hc as [->|Hc]; [reflexivity|].
      apply list_elem_of_singleton in Hc. subst c. reflexivity.
    + exists (sample_completion 1 "h1" "u1" (wed_noon - 3 * 3600000)).
      split; [right; left | split; [reflexivity | vm_compute; split; [discriminate | reflexivity]]].
  - destruct (proj2 (checkIn_once_per_period 0 (sample_user "u1" "ann")
                     (sample_store [sample_user "u1" "ann"] [sample_habit "h1" "u1" daily]
                        [sample_completion 0 "h1" "u1" (wed_noon - msPerDay)] [])
                     "h1" None wed_noon "C" (sample_habit "h1" "u1" daily)
                     ltac:(vm_compute; reflexivity)
                     ltac:(intros c h Hc Hh _; apply list_elem_of_singleton in Hh, Hc;
                           subst; reflexivity)))
      as (completion & Hat & _ & _ & _ & Hpost & _).
    + intros c Hc _. apply list_elem_of_singleton in Hc. subst c.
      vm_compute. intros [H _]. apply H. reflexivity.
    + intros Hin. apply list_elem_of_singleton in Hin. discriminate.
    + exists completion. split; [exact Hat | exact Hpost].
Defined.

Lemma checkIn_undo_round_trip_witness :
  let ann := sample_user "u1" "ann" in
  let habit := sample_habit "h1" "u1" weekly in
  let last_week := sample_completion 0 "h1" "u1" (wed_noon - 7 * msPerDay) in
  let db := sample_store [ann] [habit] [last_week] [] in
  exists completion db1,
    checkin_POST 0 (Some ann) db "h1" (Some " done ") wed_noon "C" =
      (json_ok completion 201, db1)
    /\ completion_table db1 = [last_week; completion]
    /\ checkin_DELETE 0 (Some ann) db1 "h1" (wed_noon + 2 * msPerDay) =
       (json_ok "Check-in removed successfully" 200, db).
Proof.
  cbv zeta.
  refine (proj1 (checkIn_undo_round_trip 0 (sample_user "u1" "ann")
                   (sample_store [sample_user "u1" "ann"] [sample_habit "h1" "u1" weekly]
                      [sample_completion 0 "h1" "u1" (wed_noon - 7 * msPerDay)] [])
                   "h1" (Some " done ") wed_noon (wed_noon + 2 * msPerDay) "C"
                   (sample_habit "h1" "u1" weekly) _ _) _ _ _).
  - vm_compute. reflexivity.
  - unfold completion_ids_unique. apply (bool_decide_unpack _). vm_compute. exact I.
  - intros c Hc _. apply list_elem_of_singleton in Hc. subst c.
    vm_compute. intros [H _]. apply H. reflexivity.
  - intros Hin. apply list_elem_of_singleton in Hin. discriminate.
  - vm_compute. reflexivity.
Defined.

Lemma activity_feed_witness :
  friends_GET 0 (Some (sample_user "u1" "ann"))
    (sample_store [sample_user "u1" "ann"; sample_user "u2" "bob"]
       [sample_habit "h1" "u2" daily]
       [sample_completion 0 "h1" "u2" wed_noon] []) wed_noon = json_ok [] 200.
Proof.
  apply (proj1 (activity_feed_bounded_followed_sorted 0 (sample_user "u1" "ann")
                  (sample_store [sample_user "u1" "ann"; sample_user "u2" "bob"]
                     [sample_habit "h1" "u2" daily]
                     [sample_completion 0 "h1" "u2" wed_noon] []) wed_noon)).
  vm_compute. reflexivity.
Defined.

Lemma login_failures_indistinguishable_witness :
  let isEmail := fun s => some_char (Ascii.eqb "@") s in
  let verifyPassword := fun p h => String.eqb ("hash:" +:+ p) h in
  let generateToken := fun id => "token:" +:+ id in
  let db := sample_store [sample_user "u1" "ann"] [] [] [] in
  login_POST isEmail verifyPassword generateToken db "zoe@example.com" "ann" =
  login_POST isEmail verifyPassword generateToken db "Ann@Example.com" "zoe"
  /\ login_POST isEmail verifyPassword generateToken db "Ann@Example.com" "zoe" =
     json_error "Invalid email or password" 401.
Proof.
  cbv zeta.
  apply (login_failures_indistinguishable
           (fun s => some_char (Ascii.eqb "@") s)
           (fun p h => String.eqb ("hash:" +:+ p) h)
           (fun id => "token:" +:+ id)
           (sample_store [sample_user "u1" "ann"] [] [] [])
           (sample_store [sample_user "u1" "ann"] [] [] [])
           "zoe@example.com" "ann" "Ann@Example.com" "zoe" (sample_user "u1" "ann")).
  - vm_compute. reflexivity.
  - discriminate.
  - vm_compute. reflexivity.
  - discriminate.
  - vm_compute. reflexivity.
  - vm_compute. reflexivity.
  - vm_compute. reflexivity.
Defined.

(** A long run that is not reported as 30: a habit with several
    completions in a period.  ["ann"] checks in on each of 300 days on a
    daily habit and then makes it weekly: every one of the 44 weeks back
    from the current one holds a completion, yet the 30 latest rows span 5
    weeks, and the listing and the profile report a streak of 5. *)
Lemma long_run_reported_below_30 :
  let ann := sample_user "u1" "ann" in
  let db := sample_daily_then_weekly 0 300 wed_noon in
  consecutive_periods 0 weekly "h1" db wed_noon 44 = true
  /\ (exists s,
        body (habits_GET 0 (Some ann) db wed_noon) = inr [s]
        /\ hs_habit s = sample_habit "h1" "u1" weekly
        /\ hs_totalCompletions s = 300%nat
        /\ hs_streak s = 5%nat)
  /\ (exists p,
        body (profile_GET 0 (Some ann) db wed_noon) = inr p
        /\ currentStreak p = 5%nat /\ longestStreak p = 5%nat)
  /\ ~ long_run_reported_as_30 0 db wed_noon.
Proof.
  cbv zeta.
  assert (Hrun : consecutive_periods 0 weekly "h1"
                   (sample_daily_then_weekly 0 300 wed_noon) wed_noon 44 = true)
    by (vm_compute; reflexivity).
  assert (Hlist : exists s,
             body (habits_GET 0 (Some (sample_user "u1" "ann"))
                     (sample_daily_then_weekly 0 300 wed_noon) wed_noon) = inr [s]
             /\ hs_habit s = sample_habit "h1" "u1" weekly
             /\ hs_totalCompletions s = 300%nat
             /\ hs_streak s = 5%nat).
  { destruct (body (habits_GET 0 (Some (sample_user "u1" "ann"))
                      (sample_daily_then_weekly 0 300 wed_noon) wed_noon))
      as [err|hs] eqn:Hbody; vm_compute in Hbody; [discriminate|].
    injection Hbody as <-. eexists. split; [reflexivity|].
    split; [reflexivity|]. split; reflexivity. }
  split; [exact Hrun|]. split; [exact Hlist|]. split.
  - destruct (body (profile_GET 0 (Some (sample_user "u1" "ann"))
                      (sample_daily_then_weekly 0 300 wed_noon) wed_noon))
      as [err|p] eqn:Hbody; [vm_compute in Hbody; discriminate|].
    exists p. split; [reflexivity|].
    assert (Hp : (currentStreak p, longestStreak p) = (5%nat, 5%nat)).
    { change (currentStreak p, longestStreak p)
        with (match @inr string Profile p with
              | inr q => (currentStreak q, longestStreak q)
              | inl _ => (0%nat, 0%nat)
              end).
      rewrite <- Hbody. vm_compute. reflexivity. }
    injection Hp as -> ->. split; reflexivity.
  - intros Hclaim.
    destruct (Hclaim (sample_user "u1" "ann") (sample_habit "h1" "u1" weekly) 44%nat)
      as (hs & s & Hbody & Hs & _ & H30).
    + vm_compute. left.
    + reflexivity.
    + lia.
    + exact Hrun.
    + destruct Hlist as (s0 & Hbody0 & _ & _ & H5).
      rewrite Hbody0 in Hbody. injection Hbody as <-.
      apply list_elem_of_singleton in Hs. subst s. rewrite H5 in H30. discriminate.
Qed.

Lemma reported_streak_capped_at_30_witness :
  let ann := sample_user "u1" "ann" in
  let bob := sample_user "u2" "bob" in
  let h1 := sample_habit "h1" "u1" daily in
  (exists hs s,
     body (habits_GET 0 (Some ann) sample_long_run wed_noon) = inr hs
     /\ s ∈ hs /\ hs_habit s = h1 /\ hs_streak s = 30%nat)
  /\ (exists p s,
        body (profile_GET 0 (Some ann) sample_long_run wed_noon) = inr p
        /\ s ∈ profile_habits p /\ ph_habit s = h1 /\ ph_streak s = 30%nat
        /\ currentStreak p = 30%nat /\ longestStreak p = 30%nat)
  /\ (exists acts a,
        body (friends_GET 0 (Some bob) sample_long_run wed_noon) = inr acts
        /\ a ∈ acts /\ activity a = sample_completion 0 "h1" "u1" wed_noon
        /\ activity_habit a = Some h1 /\ activity_streak a = 30%nat).
Proof.
  cbv zeta.
  assert (Hh : sample_habit "h1" "u1" daily ∈ habit_table sample_long_run) by left.
  assert (Hsort : orderBy_completedAt_desc
                    (filter (fun c => habitId c = habit_id (sample_habit "h1" "u1" daily))
                            (completion_table sample_long_run))
                  = sample_run 35 1 wed_noon ++ [])
    by (vm_compute; reflexivity).
  assert (Hlen : (30 < length (sample_run 35 1 wed_noon))%nat) by (vm_compute; lia).
  assert (Hrun : one_per_period_run 0 (frequency (sample_habit "h1" "u1" daily)) wed_noon
                   (sample_run 35 1 wed_noon))
    by (intros i c H; run_cases H).
  split; [|split].
  - apply (proj1 (proj2 (proj2 (proj2
             (reported_streak_capped_at_30 0 (Some (sample_user "u1" "ann"))
                sample_long_run wed_noon)))
             (sample_user "u1" "ann") (sample_habit "h1" "u1" daily)
             (sample_run 35 1 wed_noon) [] eq_refl Hh Hsort Hlen Hrun)).
    reflexivity.
  - apply (proj1 (proj2 (proj2 (proj2 (proj2
             (reported_streak_capped_at_30 0 (Some (sample_user "u1" "ann"))
                sample_long_run wed_noon)))
             (sample_user "u1" "ann") (sample_habit "h1" "u1" daily)
             (sample_run 35 1 wed_noon) [] eq_refl Hh Hsort Hlen Hrun))).
    + reflexivity.
    + exists (sample_user "u1" "ann"). split; [left | reflexivity].
  - apply (proj2 (proj2 (proj2 (proj2 (proj2
             (reported_streak_capped_at_30 0 (Some (sample_user "u2" "bob"))
                sample_long_run wed_noon)))
             (sample_user "u2" "bob") (sample_habit "h1" "u1" daily)
             (sample_run 35 1 wed_noon) [] eq_refl Hh Hsort Hlen Hrun))).
    + intros c h Hc Hh' _. apply list_elem_of_singleton in Hh'. subst h.
      cbn [sample_long_run sample_store completion_table] in Hc.
      apply (proj1 (list_elem_of_In _ _)) in Hc. apply (proj2 (in_rev _ _)) in Hc.
      apply (proj2 (list_elem_of_In _ _)) in Hc. unfold sample_run in Hc.
      apply list_elem_of_fmap in Hc as (i & -> & _). reflexivity.
    + vm_compute. left.
    + vm_compute. reflexivity.
Defined.

(** ** Witnesses of the further properties *)

Ltac elem_cases H :=
  unfold sample_world, sample_store in H;
  cbn [completion_table habit_table user_table friendship_table] in H;
  repeat match type of H with
         | _ ∈ _ :: _ => apply elem_of_cons in H as [H|H]; [subst|]
         | _ ∈ [] => apply elem_of_nil in H; destruct H
         end.

Lemma sample_world_owned : completions_owned sample_world.
Proof.
  intros c h Hc Hh Heq. elem_cases Hc; elem_cases Hh; try reflexivity; discriminate.
Defined.

Lemma sample_world_one_per_period : one_completion_per_period 0 sample_world.
Proof.
  intros h c1 c2 Hh Hc1 Hc2 H1 H2 _.
  elem_cases Hh; elem_cases Hc1; elem_cases Hc2; try reflexivity; discriminate.
Defined.

Lemma streak_positive_iff_current_period_witness :
  (0 < streak 0 daily (sample_run 3 1 wed_noon) wed_noon)%nat.
Proof.
  apply (streak_positive_iff_current_period 0 daily (sample_run 3 1 wed_noon) wed_noon).
  - apply (bool_decide_unpack _). vm_compute. exact I.
  - exists (sample_completion 0 "h1" "u1" wed_noon).
    split; [left | vm_compute; split; [discriminate | reflexivity]].
Defined.

Lemma streak_head_in_current_period_witness :
  streak 0 weekly
    (sample_completion 0 "h1" "u1" wed_noon :: sample_run 2 7 (wed_noon - 7 * msPerDay))
    wed_noon
  = S (streak 0 weekly (sample_run 2 7 (wed_noon - 7 * msPerDay)) (addDays wed_noon (-7))).
Proof.
  apply (streak_head_in_current_period 0 weekly).
  vm_compute. split; [discriminate | reflexivity].
Defined.

Lemma streak_ignores_repeat_in_period_witness :
  streak 0 daily
    ([sample_completion 0 "h1" "u1" wed_noon]
     ++ sample_completion 1 "h1" "u1" (wed_noon - msPerDay)
     :: sample_completion 2 "h1" "u1" (wed_noon - msPerDay - 3600000)
     :: [sample_completion 3 "h1" "u1" (wed_noon - 2 * msPerDay)]) wed_noon
  = streak 0 daily
      ([sample_completion 0 "h1" "u1" wed_noon]
       ++ sample_completion 1 "h1" "u1" (wed_noon - msPerDay)
       :: [sample_completion 3 "h1" "u1" (wed_noon - 2 * msPerDay)]) wed_noon.
Proof.
  apply (streak_ignores_repeat_in_period 0 daily). vm_compute. reflexivity.
Defined.

Lemma completedToday_daily_current_day_witness :
  completedToday 0 daily (sample_run 3 1 wed_noon) wed_noon = true.
Proof.
  apply (proj1 (completedToday_daily_current_day 0 (sample_run 3 1 wed_noon) wed_noon)).
  exists (sample_completion 0 "h1" "u1" wed_noon).
  split; [left | vm_compute; split; [discriminate | reflexivity]].
Defined.

Lemma feed_streak_is_listing_streak_witness :
  exists acts a h,
    body (friends_GET 0 (Some (sample_user "u1" "ann")) sample_world wed_noon) = inr acts
    /\ a ∈ acts /\ activity_habit a = Some h
    /\ activity_streak a = streak 0 (frequency h) (lastCompletions sample_world (habit_id h)) wed_noon.
Proof.
  eexists. eexists. eexists. split; [vm_compute; reflexivity|].
  split; [left|]. split; [reflexivity|].
  eapply (feed_streak_is_listing_streak 0 (sample_user "u1" "ann") sample_world wed_noon).
  - exact sample_world_owned.
  - vm_compute. reflexivity.
  - left.
  - reflexivity.
Defined.

Lemma feed_complete_up_to_50_witness :
  exists acts a,
    friends_GET 0 (Some (sample_user "u1" "ann")) sample_world wed_noon = json_ok acts 200
    /\ a ∈ acts
    /\ activity a = sample_completion 1 "h2" "u2" (wed_noon - 2 * 3600000).
Proof.
  apply (feed_complete_up_to_50 0 (sample_user "u1" "ann") sample_world wed_noon).
  - vm_compute. lia.
  - right. left.
  - left.
Defined.

Lemma profile_currentStreak_is_max_witness :
  exists p,
    body (profile_GET 0 (Some (sample_user "u2" "bob")) sample_world wed_noon) = inr p
    /\ currentStreak p = 1%nat
    /\ Forall (fun h => (ph_streak h <= currentStreak p)%nat) (profile_habits p).
Proof.
  eexists. split; [vm_compute; reflexivity|]. split; [reflexivity|].
  eapply (proj1 (profile_currentStreak_is_max 0 (Some (sample_user "u2" "bob"))
                   sample_world wed_noon _ _)).
  Unshelve. vm_compute. reflexivity.
Defined.

Lemma checkin_keeps_one_completion_per_period_witness :
  one_completion_per_period 0
    (snd (checkin_POST 0 (Some (sample_user "u1" "ann")) sample_world "h1" None wed_noon "C")).
Proof.
  apply (proj1 (checkin_keeps_one_completion_per_period 0 (Some (sample_user "u1" "ann"))
                  sample_world "h1" None wed_noon "C"
                  ltac:(apply (bool_decide_unpack _); vm_compute; exact I)
                  sample_world_owned sample_world_one_per_period)).
Defined.

Lemma foreign_habit_is_not_found_witness :
  checkin_POST 0 (Some (sample_user "u1" "ann")) sample_world "h2" None wed_noon "C" =
    (json_error "Habit not found" 404, sample_world)
  /\ checkin_POST 0 (Some (sample_user "u1" "ann")) sample_world "h9" None wed_noon "C" =
       (json_error "Habit not found" 404, sample_world).
Proof.
  split.
  - apply (foreign_habit_is_not_found 0 (sample_user "u1" "ann") sample_world "h2" None
             wed_noon "C" None None None None None).
    + apply (bool_decide_unpack _). vm_compute. exact I.
    + right. exists (sample_habit "h2" "u2" weekly).
      split; [right; left | split; [reflexivity | discriminate]].
  - apply (foreign_habit_is_not_found 0 (sample_user "u1" "ann") sample_world "h9" None
             wed_noon "C" None None None None None).
    + apply (bool_decide_unpack _). vm_compute. exact I.
    + left. apply (bool_decide_unpack _). vm_compute. exact I.
Defined.

Lemma checkin_shows_in_listing_witness :
  exists completion db1 hs s,
    checkin_POST 0 (Some (sample_user "u1" "ann")) sample_world "h1" None wed_noon "C"
      = (json_ok completion 201, db1)
    /\ body (habits_GET 0 (Some (sample_user "u1" "ann")) db1 wed_noon) = inr hs
    /\ s ∈ hs
    /\ (0 < hs_streak s)%nat
    /\ (frequency (hs_habit s) = daily -> hs_completedToday s = true).
Proof.
  eexists. eexists. eexists. eexists.
  split; [vm_compute; reflexivity|]. split; [vm_compute; reflexivity|]. split; [left|].
  eapply (checkin_shows_in_listing 0 (Some (sample_user "u1" "ann")) sample_world "h1" None
            wed_noon "C").
  - intros c Hc Hid. elem_cases Hc; [vm_compute; discriminate | discriminate].
  - vm_compute. reflexivity.
  - vm_compute. reflexivity.
  - left.
  - reflexivity.
Defined.

Lemma follow_keeps_relation_wellformed_witness :
  no_self_follow (snd (friends_POST (Some (sample_user "u1" "ann")) sample_world "u3" "f2"))
  /\ follow_pairs_unique
       (snd (friends_POST (Some (sample_user "u1" "ann")) sample_world "u3" "f2")).
Proof.
  apply (proj1 (follow_keeps_relation_wellformed (Some (sample_user "u1" "ann"))
                  sample_world "u3" "f2"
                  ltac:(intros f Hf; elem_cases Hf; discriminate)
                  ltac:(apply (bool_decide_unpack _); vm_compute; exact I))).
Defined.

Lemma follow_twice_is_refused_witness :
  exists friendship db1,
    friends_POST (Some (sample_user "u1" "ann")) sample_world "u3" "f2"
      = (json_ok friendship 201, db1)
    /\ friends_POST (Some (sample_user "u1" "ann")) db1 "u3" "f3"
       = (json_error "Already following this user" 400, db1).
Proof.
  eexists. eexists. split; [vm_compute; reflexivity|].
  eapply (follow_twice_is_refused (Some (sample_user "u1" "ann")) sample_world "u3" "f2").
  vm_compute. reflexivity.
Defined.

Lemma follow_unfollow_round_trip_witness :
  exists friendship db1,
    friends_POST (Some (sample_user "u1" "ann")) sample_world "u3" "f2"
      = (json_ok friendship 201, db1)
    /\ friends_DELETE (Some (sample_user "u1" "ann")) db1 "u3"
       = (json_ok "Unfollowed successfully" 200, sample_world).
Proof.
  eexists. eexists. split; [vm_compute; reflexivity|].
  eapply (proj1 (follow_unfollow_round_trip (sample_user "u1" "ann") sample_world "u3" "f2")).
  vm_compute. reflexivity.
Defined.

Lemma follow_brings_completions_into_feed_witness :
  exists friendship db1 acts a,
    friends_POST (Some (sample_user "u3" "cat")) sample_world "u2" "f2"
      = (json_ok friendship 201, db1)
    /\ friends_GET 0 (Some (sample_user "u3" "cat")) db1 wed_noon = json_ok acts 200
    /\ a ∈ acts
    /\ activity a = sample_completion 1 "h2" "u2" (wed_noon - 2 * 3600000).
Proof.
  assert (Hpost : friends_POST (Some (sample_user "u3" "cat")) sample_world "u2" "f2"
                  = (json_ok (sample_friendship "f2" "u3" "u2") 201,
                     set_friendships sample_world
                       (friendship_table sample_world ++ [sample_friendship "f2" "u3" "u2"])))
    by (vm_compute; reflexivity).
  destruct (follow_brings_completions_into_feed 0 (sample_user "u3" "cat") sample_world "u2"
              "f2" _ _ wed_noon (sample_completion 1 "h2" "u2" (wed_noon - 2 * 3600000))
              Hpost)
    as (acts & a & Hfeed & Hin & Ha).
  - vm_compute. lia.
  - right. left.
  - reflexivity.
  - exists (sample_friendship "f2" "u3" "u2"),
      (set_friendships sample_world
         (friendship_table sample_world ++ [sample_friendship "f2" "u3" "u2"])), acts, a.
    auto.
Defined.

Lemma unfollow_removes_events_from_feed_witness :
  exists message db1 acts a,
    friends_DELETE (Some (sample_user "u1" "ann")) sample_world2 "u2"
      = (json_ok message 200, db1)
    /\ body (friends_GET 0 (Some (sample_user "u1" "ann")) db1 wed_noon) = inr acts
    /\ a ∈ acts
    /\ userId (activity a) <> "u2".
Proof.
  set (db1 := set_friendships sample_world2 [sample_friendship "f2" "u1" "u3"]).
  assert (Hdel : friends_DELETE (Some (sample_user "u1" "ann")) sample_world2 "u2"
                 = (json_ok "Unfollowed successfully" 200, db1))
    by (vm_compute; reflexivity).
  destruct (body (friends_GET 0 (Some (sample_user "u1" "ann")) db1 wed_noon))
    as [err|acts] eqn:Hbody; [vm_compute in Hbody; discriminate|].
  destruct acts as [|a acts]; [vm_compute in Hbody; discriminate|].
  exists "Unfollowed successfully", db1, (a :: acts), a.
  split; [exact Hdel|]. split; [exact Hbody|]. split; [left|].
  apply (unfollow_removes_events_from_feed 0 (sample_user "u1" "ann") sample_world2 "u2"
           "Unfollowed successfully" db1 wed_noon (a :: acts) a).
  - apply (bool_decide_unpack _). vm_compute. exact I.
  - exact Hdel.
  - exact Hbody.
  - left.
Defined.

Lemma users_search_results_witness :
  exists rs,
    users_search_GET (fun rows => rows) sample_contains
      (Some (sample_user "u1" "ann")) sample_world (Some "C_T") = json_ok rs 200
    /\ map sr_username rs = ["cat"].
Proof.
  destruct (users_search_results (fun rows => rows) (fun rows => reflexivity rows)
              sample_contains (sample_user "u1" "ann") sample_world (Some "C_T"))
    as (rs & Hrs & _).
  exists rs. split; [exact Hrs|].
  assert (Hbody : body (users_search_GET (fun rows => rows) sample_contains
                          (Some (sample_user "u1" "ann")) sample_world (Some "C_T"))
                  = inr rs) by (now rewrite Hrs).
  vm_compute in Hbody. injection Hbody as <-. reflexivity.
Defined.

Lemma search_result_can_be_followed_witness :
  exists rs r db1,
    body (users_search_GET (fun rows => rows) sample_contains
            (Some (sample_user "u1" "ann")) sample_world None) = inr rs
    /\ r ∈ rs
    /\ friends_POST (Some (sample_user "u1" "ann")) sample_world (sr_id r) "f2"
       = (json_ok (sample_friendship "f2" "u1" (sr_id r)) 201, db1).
Proof.
  eexists. eexists. eexists. split; [vm_compute; reflexivity|]. split; [left|].
  eapply (search_result_can_be_followed (fun rows => rows) (fun rows => reflexivity rows)
            sample_contains (sample_user "u1" "ann") sample_world None).
  - intros u Hu. elem_cases Hu; discriminate.
  - apply (bool_decide_unpack _). vm_compute. exact I.
  - vm_compute. reflexivity.
  - left.
Defined.

Lemma emails_stay_unique_witness :
  emails_unique_ci
    (snd (signup_POST (some_char (Ascii.eqb "@")) (fun p => "hash:" +:+ p)
            (fun id => "token:" +:+ id) sample_world
            "dave@example.com" "Passw0rd1" "dave" wed_noon "u4")).
Proof.
  apply (proj1 (emails_stay_unique (some_char (Ascii.eqb "@")) (fun _ => true)
                  (fun p => "hash:" +:+ p) (fun id => "token:" +:+ id)
                  None sample_world "dave@example.com" "Passw0rd1" "dave" wed_noon "u4"
                  None None None
                  ltac:(apply (bool_decide_unpack _); vm_compute; exact I)
                  ltac:(apply (bool_decide_unpack _); vm_compute; exact I))).
Defined.

Lemma usernames_stay_unique_exactly_witness :
  usernames_unique_exact
    (snd (profile_PUT (fun _ => true) (Some (sample_user "u2" "bob")) sample_world
            (Some "Ann") None None))
  /\ profile_PUT (fun _ => true) (Some (sample_user "u2" "bob")) sample_world
       (Some "ann") None None
     = (json_error "Username already taken" 400, sample_world).
Proof.
  split.
  - apply (proj1 (proj2 (usernames_stay_unique_exactly (some_char (Ascii.eqb "@"))
                  (fun _ => true) (fun p => "hash:" +:+ p) (fun id => "token:" +:+ id)
                  (Some (sample_user "u2" "bob")) sample_world
                  "dave@example.com" "Passw0rd1" "dave" wed_noon "u4"
                  (Some "Ann") None None
                  ltac:(apply (bool_decide_unpack _); vm_compute; exact I)
                  ltac:(apply (bool_decide_unpack _); vm_compute; exact I)))).
  - apply (proj2 (proj2 (usernames_stay_unique_exactly (some_char (Ascii.eqb "@"))
                  (fun _ => true) (fun p => "hash:" +:+ p) (fun id => "token:" +:+ id)
                  (Some (sample_user "u2" "bob")) sample_world
                  "dave@example.com" "Passw0rd1" "dave" wed_noon "u4"
                  (Some "ann") None None
                  ltac:(apply (bool_decide_unpack _); vm_compute; exact I)
                  ltac:(apply (bool_decide_unpack _); vm_compute; exact I)))
             (sample_user "u2" "bob") "ann" (sample_user "u1" "ann")).
    + reflexivity.
    + reflexivity.
    + vm_compute. reflexivity.
    + left.
    + reflexivity.
    + discriminate.
Defined.

Lemma signup_then_login_witness :
  exists payload c,
    body (fst (signup_POST (some_char (Ascii.eqb "@")) (fun p => "hash:" +:+ p)
                 (fun id => "token:" +:+ id) sample_world
                 "dave@example.com" "Passw0rd1" "dave" wed_noon "u4")) = inr payload
    /\ view_id (signup_user payload) = "u4"
    /\ status (login_POST (some_char (Ascii.eqb "@"))
                 (fun p h => String.eqb ("hash:" +:+ p) h) (fun id => "token:" +:+ id)
                 (snd (signup_POST (some_char (Ascii.eqb "@")) (fun p => "hash:" +:+ p)
                         (fun id => "token:" +:+ id) sample_world
                         "dave@example.com" "Passw0rd1" "dave" wed_noon "u4"))
                 "dave@example.com" "Passw0rd1") = 200
    /\ body (login_POST (some_char (Ascii.eqb "@"))
               (fun p h => String.eqb ("hash:" +:+ p) h) (fun id => "token:" +:+ id)
               (snd (signup_POST (some_char (Ascii.eqb "@")) (fun p => "hash:" +:+ p)
                       (fun id => "token:" +:+ id) sample_world
                       "dave@example.com" "Passw0rd1" "dave" wed_noon "u4"))
               "dave@example.com" "Passw0rd1") = inr (signup_user payload)
    /\ set_cookie (login_POST (some_char (Ascii.eqb "@"))
                     (fun p h => String.eqb ("hash:" +:+ p) h) (fun id => "token:" +:+ id)
                     (snd (signup_POST (some_char (Ascii.eqb "@")) (fun p => "hash:" +:+ p)
                             (fun id => "token:" +:+ id) sample_world
                             "dave@example.com" "Passw0rd1" "dave" wed_noon "u4"))
                     "dave@example.com" "Passw0rd1") = Some c
    /\ cookie_name c = "auth-token"
    /\ cookie_maxAge c = 60 * 60 * 24 * 7.
Proof.
  apply (signup_then_login (some_char (Ascii.eqb "@")) (fun p => "hash:" +:+ p)
           (fun p h => String.eqb ("hash:" +:+ p) h) (fun id => "token:" +:+ id)
           sample_world "dave@example.com" "Passw0rd1" "dave" wed_noon "u4").
  - intros p. apply String.eqb_refl.
  - vm_compute. reflexivity.
  - apply surjective_pairing.
  - vm_compute. reflexivity.
Defined.

Lemma habit_names_stay_unique_witness :
  habit_names_unique
    (snd (habit_PUT (Some (sample_user "u1" "ann")) sample_world "h1"
            (Some " Run ") None (Some weekly) None None))
  /\ habit_names_trimmed
       (snd (habit_PUT (Some (sample_user "u1" "ann")) sample_world "h1"
               (Some " Run ") None (Some weekly) None None)).
Proof.
  apply (proj2 (habit_names_stay_unique (Some (sample_user "u1" "ann")) sample_world
                  "Run" "health" "daily" None None wed_noon "h4"
                  "h1" (Some " Run ") None (Some weekly) None None
                  ltac:(apply (bool_decide_unpack _); vm_compute; exact I)
                  ltac:(apply (bool_decide_unpack _); vm_compute; exact I)
                  ltac:(intros h Hh; elem_cases Hh; vm_compute; reflexivity))).
Defined.

Lemma blank_habit_name_is_stored_empty_witness :
  exists habit,
    habits_POST (Some (sample_user "u1" "ann")) sample_world "  " "health" "daily"
      None None wed_noon "h4"
    = (json_ok habit 201, set_habits sample_world (habit_table sample_world ++ [habit]))
    /\ name habit = "".
Proof.
  destruct (blank_habit_name_is_stored_empty (sample_user "u1" "ann") sample_world
              "  " "health" "daily" None None wed_noon "h4" health daily)
    as (habit & Hpost & Hname & _).
  - vm_compute. split; discriminate.
  - reflexivity.
  - reflexivity.
  - reflexivity.
  - intros h Hh _. elem_cases Hh; discriminate.
  - apply (bool_decide_unpack _). vm_compute. exact I.
  - exists habit. split; [exact Hpost | exact Hname].
Defined.
